(** * rag_sample: a shallow embedding of install.ts and app.ts

    The repository has two entry points.  [install.ts] loads the markdown
    files of one directory, splits them, embeds the chunks and writes them
    to a Chroma collection.  [app.ts] opens the existing collection and
    answers fixed questions through a retrieval chain.

    Strings are [string]; the console, the file system, the Chroma database
    and the identifier generator of the Chroma adapter are fields of an
    explicit [World]; JavaScript exceptions are the left summand of a
    state-and-error monad.  The embedding service, the language model and
    the text splitter are parameters of the development. *)

From Stdlib Require Import String Ascii List Arith ZArith QArith Lia Bool.
From stdpp Require Import base option list gmap strings pretty sorting.

Open Scope string_scope.
Open Scope list_scope.

(** ** JavaScript strings and arrays *)

Module Js.

(** The line feed written [\n] in the source. *)
Definition LF : string := String "010"%char EmptyString.

(** [String.prototype.endsWith]: the last [length suffix] characters of
    [s] are [suffix]. *)
Definition endsWith (s suffix : string) : bool :=
  let n := String.length s in
  let m := String.length suffix in
  if (m <=? n)%nat then String.eqb (substring (n - m) m s) suffix else false.

(** [Array.prototype.join]: the loop of the language definition, which
    appends the separator before every element but the first. *)
Fixpoint join_loop (sep R : string) (k : nat) (l : list string) : string :=
  match l with
  | [] => R
  | x :: rest =>
      let R' := match k with O => R | S _ => R +:+ sep end in
      join_loop sep (R' +:+ x) (S k) rest
  end.

Definition join (sep : string) (l : list string) : string :=
  join_loop sep "" 0 l.

(** A thrown value: an [Error] object with its [name] and [message]. *)
Record Error : Type := mkError { name : string; message : string }.

End Js.

(** ** Node's posix [path] module *)

Module Path.

Definition sep : ascii := "/"%char.

(** The segments of a path between separators. *)
Fixpoint split (p : string) : list string :=
  match p with
  | EmptyString => [EmptyString]
  | String c rest =>
      if Ascii.eqb c sep then EmptyString :: split rest
      else match split rest with
           | seg :: segs => String c seg :: segs
           | [] => [String c EmptyString]
           end
  end.

(** [normalizeString]: drops empty and [.] segments and resolves [..]
    against the segments kept so far ([res] holds them in reverse). *)
Fixpoint normalizeSegments (allowAboveRoot : bool) (res segs : list string)
  : list string :=
  match segs with
  | [] => rev res
  | seg :: rest =>
      if String.eqb seg "" || String.eqb seg "." then
        normalizeSegments allowAboveRoot res rest
      else if String.eqb seg ".." then
        match res with
        | last :: res' =>
            if String.eqb last ".." then
              normalizeSegments allowAboveRoot (seg :: res) rest
            else normalizeSegments allowAboveRoot res' rest
        | [] =>
            if allowAboveRoot then
              normalizeSegments allowAboveRoot [seg] rest
            else normalizeSegments allowAboveRoot [] rest
        end
      else normalizeSegments allowAboveRoot (seg :: res) rest
  end.

Definition isAbsolute (p : string) : bool :=
  match p with
  | String c _ => Ascii.eqb c sep
  | EmptyString => false
  end.

Definition trailingSeparator (p : string) : bool := Js.endsWith p "/".

(** [path.normalize]. *)
Definition normalize (p : string) : string :=
  match p with
  | EmptyString => "."
  | _ =>
      let body :=
        Js.join "/" (normalizeSegments (negb (isAbsolute p)) [] (split p)) in
      match body with
      | EmptyString =>
          if isAbsolute p then "/"
          else if trailingSeparator p then "./" else "."
      | _ =>
          let body' := if trailingSeparator p then body +:+ "/" else body in
          if isAbsolute p then "/" +:+ body' else body'
      end
  end.

(** [path.join]: the non-empty arguments joined by the separator, then
    normalized. *)
Definition join (args : list string) : string :=
  match filter (fun a => a <> "") args with
  | [] => "."
  | parts => normalize (Js.join "/" parts)
  end.

(** [path.basename] without a suffix argument: the last segment that is
    not empty, so that trailing separators are ignored. *)
Definition basename (p : string) : string :=
  match filter (fun s => s <> "") (rev (split p)) with
  | seg :: _ => seg
  | [] => ""
  end.

(** A string without a separator: a single segment. *)
Fixpoint noSep (s : string) : bool :=
  match s with
  | EmptyString => true
  | String c rest => negb (Ascii.eqb c sep) && noSep rest
  end.

End Path.

(** ** Node's [fs] module, on the tree below the working directory *)

Module Fs.

#[warnings="-register-all"] Inductive Node : Type :=
| File (content : string)
| Dir (entries : list (string * Node)).

Fixpoint assoc (name : string) (entries : list (string * Node)) : option Node :=
  match entries with
  | [] => None
  | (n, node) :: rest => if String.eqb n name then Some node else assoc name rest
  end.

Fixpoint lookup (node : Node) (segs : list string) : option Node :=
  match segs with
  | [] => Some node
  | seg :: rest =>
      match node with
      | Dir entries =>
          match assoc seg entries with
          | Some child => lookup child rest
          | None => None
          end
      | File _ => None
      end
  end.

(** The segments a path resolves through, from the working directory. *)
Definition segments (p : string) : list string :=
  Path.normalizeSegments false [] (Path.split p).

(** A path is resolved from the working directory, whose tree is [cwd];
    the program only names paths below it. *)
Definition resolve (cwd : Node) (p : string) : option Node :=
  lookup cwd (segments p).

(** Whether a path runs through a regular file: a segment before the last
    names a file of the tree. *)
Fixpoint throughFile (node : Node) (segs : list string) : bool :=
  match segs with
  | [] => false
  | seg :: rest =>
      match node with
      | Dir entries =>
          match assoc seg entries with
          | Some (File _) => match rest with [] => false | _ :: _ => true end
          | Some child => throughFile child rest
          | None => false
          end
      | File _ => false
      end
  end.

(** The error of a system call on a path. *)
Definition errno (code description syscall p : string) : Js.Error :=
  Js.mkError "Error"
    (code +:+ ": " +:+ description +:+ ", " +:+ syscall +:+ " '" +:+ p +:+ "'").

(** The error of a system call on an open file, which names no path. *)
Definition errnoOpened (code description syscall : string) : Js.Error :=
  Js.mkError "Error" (code +:+ ": " +:+ description +:+ ", " +:+ syscall).

(** The error of a path that does not lead to what is asked for: it runs
    through a regular file, or names nothing. *)
Definition unresolved (cwd : Node) (syscall p : string) : Js.Error :=
  if throughFile cwd (segments p) then errno "ENOTDIR" "not a directory" syscall p
  else errno "ENOENT" "no such file or directory" syscall p.

(** [fs.readdirSync]: the names of the entries, in directory order. *)
Definition readdirSync (cwd : Node) (p : string) : Js.Error + list string :=
  match resolve cwd p with
  | Some (Dir entries) => inr (map fst entries)
  | Some (File _) => inl (errno "ENOTDIR" "not a directory" "scandir" p)
  | None => inl (unresolved cwd "scandir" p)
  end.

(** [fs.readFileSync] with an encoding: the content of a regular file.  A
    directory is opened and fails to be read; a regular file named with a
    trailing separator is not opened. *)
Definition readFileSync (cwd : Node) (p : string) : Js.Error + string :=
  match resolve cwd p with
  | Some (File content) =>
      if Path.trailingSeparator p then inl (errno "ENOTDIR" "not a directory" "open" p)
      else inr content
  | Some (Dir _) => inl (errnoOpened "EISDIR" "illegal operation on a directory" "read")
  | None => inl (unresolved cwd "open" p)
  end.

(** The name of a directory entry: one segment, neither empty nor one of
    the two dot entries, which a listing never returns. *)
Definition validName (name : string) : bool :=
  negb (String.eqb name "") && negb (String.eqb name ".")
  && negb (String.eqb name "..") && Path.noSep name.

(** A directory holds valid names, each of them once. *)
Definition wellFormedDir (entries : list (string * Node)) : Prop :=
  NoDup (map fst entries) /\ Forall (fun entry => validName entry.1 = true) entries.

End Fs.

(** ** Documents and the external services *)

(** A LangChain [Document]: its text and its metadata. *)
Record Document : Type := mkDocument {
  pageContent : string;
  metadata : gmap string string
}.

(** [OllamaEmbeddings]: the embedding service behind its two calls. *)
Class Embeddings (Vector : Type) : Type := {
  embedDocuments : list string -> Js.Error + list Vector;
  embedQuery : string -> Js.Error + Vector
}.

(** The similarity of two embedding vectors under the metric of the
    collection; a larger score is a nearer entry. *)
Class Metric (Vector : Type) : Type := {
  similarity : Vector -> Vector -> Q
}.

(** [Ollama]: the language model behind its [invoke]. *)
Class LanguageModel : Type := {
  generate : string -> Js.Error + string
}.

(** [MarkdownTextSplitter]: [splitDocuments] of a splitter built with a
    chunk size and a chunk overlap. *)
Class TextSplitter : Type := {
  splitDocuments : nat -> nat -> list Document -> Js.Error + list Document
}.

(** ** The Chroma database *)

Module Chroma.

Section Store.
Context {Vector : Type} `{!Metric Vector}.

(** An entry of a collection, stored under its identifier. *)
Record Entry : Type := mkEntry {
  embedding : Vector;
  document : string;
  metadatas : gmap string string
}.

(** Identifiers are numbered in the order the adapter issues them. *)
Abbreviation Id := nat (only parsing).

(** Modelled from the spec: the Chroma database server, which is not part
    of the sources.  A collection maps identifiers to entries (vector,
    text, metadata) and the database maps collection names to
    collections. *)
Abbreviation Db := (gmap string (gmap Id Entry)) (only parsing).

Definition entries (db : Db) (collectionName : string) : gmap Id Entry :=
  default ∅ (db !! collectionName).

Definition count (db : Db) (collectionName : string) : nat :=
  size (entries db collectionName).

(** Modelled from the spec: the get-or-create of the server, which is not
    part of the sources.  The collection is created before its first use
    when it does not exist (the source says [Create or get the Chroma
    collection]).  The server is taken to be reachable: its operations
    return, and what the programs do when it is not is outside this
    development. *)
Definition ensureCollection (collectionName : string) (db : Db) : Db :=
  match db !! collectionName with
  | Some _ => db
  | None => <[collectionName := ∅]> db
  end.

(** Modelled from the spec: the upsert of the server, which is not part of
    the sources, on (identifier, entry) pairs; an identifier already
    present is overwritten. *)
Definition upsert (items : list (Id * Entry)) (c : gmap Id Entry)
  : gmap Id Entry :=
  fold_left (fun acc item => <[item.1 := item.2]> acc) items c.

Definition upsertInto (collectionName : string) (items : list (Id * Entry))
  (db : Db) : Db :=
  <[collectionName := upsert items (entries db collectionName)]> db.

Definition toEntry (v : Vector) (d : Document) : Entry :=
  mkEntry v (pageContent d) (metadata d).

Definition toDocument (e : Entry) : Document :=
  mkDocument (document e) (metadatas e).

(** A result is nearer than another when its score is at least as
    large. *)
Definition nearer (a b : Document * Q) : Prop := (a.2 >= b.2)%Q.

#[global] Instance nearer_dec a b : Decision (nearer a b).
Proof. unfold nearer, Qle. apply _. Defined.

Definition scored (v : Vector) (c : gmap Id Entry) : list (Document * Q) :=
  map (fun item => (toDocument item.2, similarity v (embedding item.2)))
      (map_to_list c).

(** Modelled from the spec: the nearest-neighbour query of the server,
    which is not part of the sources: the [k] nearest entries, ranked by
    descending similarity. *)
Definition query (c : gmap Id Entry) (v : Vector) (k : nat)
  : list (Document * Q) :=
  take k (merge_sort nearer (scored v c)).

End Store.

Arguments Entry : clear implicits.

Abbreviation Id := nat (only parsing).
Abbreviation Db Vector := (gmap string (gmap nat (Entry Vector))) (only parsing).

End Chroma.

(** ** The world of a run and the monad of the program *)

Inductive ConsoleLine : Type :=
| ConsoleLog (text : string)
| ConsoleError (text : string) (err : Js.Error).

Record World (Vector : Type) : Type := mkWorld {
  console : list ConsoleLine;
  cwd : Fs.Node;
  chroma : Chroma.Db Vector;
  (** the number of identifiers the Chroma adapter has issued so far *)
  uuids : nat
}.

Arguments mkWorld {Vector}.
Arguments console {Vector}.
Arguments cwd {Vector}.
Arguments chroma {Vector}.
Arguments uuids {Vector}.

(** Every identifier stored in the database was issued by the generator
    of the adapter. *)
Definition issued {Vector : Type} (w : World Vector) : Prop :=
  forall collectionName c id,
    chroma w !! collectionName = Some c -> is_Some (c !! id) -> id < uuids w.

Module Run.

Section Monad.
Context {Vector : Type}.

(** A computation either throws or returns, and leaves a world. *)
Definition M (A : Type) : Type :=
  World Vector -> (Js.Error + A) * World Vector.

Definition ret {A} (a : A) : M A := fun w => (inr a, w).

Definition throw {A} (e : Js.Error) : M A := fun w => (inl e, w).

Definition bind {A B} (m : M A) (k : A -> M B) : M B :=
  fun w =>
    match m w with
    | (inr a, w') => k a w'
    | (inl e, w') => (inl e, w')
    end.

(** [try { m } catch (error) { handler error }]. *)
Definition tryCatch {A} (m : M A) (handler : Js.Error -> M A) : M A :=
  fun w =>
    match m w with
    | (inl e, w') => handler e w'
    | r => r
    end.

(** A call that throws or returns without touching the world. *)
Definition lift {A} (r : Js.Error + A) : M A := fun w => (r, w).

(** The world with one more line on the console. *)
Definition logged (line : ConsoleLine) (w : World Vector) : World Vector :=
  mkWorld (console w ++ [line]) (cwd w) (chroma w) (uuids w).

Definition console_log (text : string) : M unit :=
  fun w => (inr tt, logged (ConsoleLog text) w).

Definition console_error (text : string) (e : Js.Error) : M unit :=
  fun w => (inr tt, logged (ConsoleError text e) w).

Definition readdirSync (p : string) : M (list string) :=
  fun w => (Fs.readdirSync (cwd w) p, w).

Definition readFileSync (p : string) : M string :=
  fun w => (Fs.readFileSync (cwd w) p, w).

(** Two worlds whose collections hold the same entries and whose files
    are the same. *)
Definition sameStore (w w' : World Vector) : Prop :=
  (forall collectionName,
      Chroma.entries (chroma w) collectionName
      = Chroma.entries (chroma w') collectionName)
  /\ uuids w = uuids w' /\ cwd w = cwd w'.

(** A computation that leaves the entries of every collection alone,
    whether it returns or throws. *)
Definition readOnly {A} (m : M A) : Prop :=
  forall w, sameStore w (m w).2.

(** What a computation returns, when it returns, satisfies [P]. *)
Definition returns {A} (P : A -> Prop) (m : M A) : Prop :=
  forall w a w', m w = (inr a, w') -> P a.

End Monad.

End Run.

Declare Scope run_scope.
Delimit Scope run_scope with run.
Notation "x <- c1 ;; c2" := (Run.bind c1 (fun x => c2))
  (at level 100, c1 at next level, right associativity) : run_scope.
Notation "c1 ;; c2" := (Run.bind c1 (fun _ => c2))
  (at level 100, right associativity) : run_scope.

(** ** LangChain's [PromptTemplate] *)

Module Prompt.

Inductive Node : Type :=
| Literal (text : string)
| Slot (name : string).

Definition snoc (s : string) (c : ascii) : string := s +:+ String c EmptyString.

Definition emit (lit : string) (nodes : list Node) : list Node :=
  match lit with
  | EmptyString => nodes
  | _ => Literal lit :: nodes
  end.

(** Modelled from the spec: the template renderer, [PromptTemplate] of
    the external library, which is not part of the sources; a template is
    parsed once and its slots are substituted.  Text outside braces is
    literal, [{name}] is a slot, doubled braces stand for one brace.
    [inside] holds the name read so far when the parser is between braces,
    [lit] the literal read so far. *)
Fixpoint parseFString (s : string) (inside : option string) (lit : string)
  : Js.Error + list Node :=
  match s with
  | EmptyString =>
      match inside with
      | None => inr (emit lit [])
      | Some _ => inl (Js.mkError "Error" "Unclosed '{' in template.")
      end
  | String c rest =>
      match inside with
      | Some v =>
          if Ascii.eqb c "}" then
            match parseFString rest None "" with
            | inr nodes => inr (Slot v :: nodes)
            | inl e => inl e
            end
          else parseFString rest (Some (snoc v c)) lit
      | None =>
          if Ascii.eqb c "{" then
            match rest with
            | String "{" rest' => parseFString rest' None (snoc lit "{")
            | _ =>
                match parseFString rest (Some "") "" with
                | inr nodes => inr (emit lit nodes)
                | inl e => inl e
                end
            end
          else if Ascii.eqb c "}" then
            match rest with
            | String "}" rest' => parseFString rest' None (snoc lit "}")
            | _ => inl (Js.mkError "Error" "Single '}' in template.")
            end
          else parseFString rest None (snoc lit c)
      end
  end.

(** [PromptTemplate.fromTemplate]. *)
Definition fromTemplate (template : string) : Js.Error + list Node :=
  parseFString template None "".

(** [PromptTemplate.format]: every slot is replaced by its value, which
    is not parsed again. *)
Fixpoint format (nodes : list Node) (values : gmap string string)
  : Js.Error + string :=
  match nodes with
  | [] => inr ""
  | Literal text :: rest =>
      match format rest values with
      | inr s => inr (text +:+ s)
      | inl e => inl e
      end
  | Slot name :: rest =>
      match values !! name with
      | Some v =>
          match format rest values with
          | inr s => inr (v +:+ s)
          | inl e => inl e
          end
      | None =>
          inl (Js.mkError "Error" ("(f-string) Missing value for input " +:+ name))
      end
  end.

End Prompt.

(** ** LangChain's Chroma vector store *)

Module VectorStore.

Section Adapter.
Context {Vector : Type} `{!Embeddings Vector} `{!Metric Vector}.

Local Open Scope run_scope.

(** The handle built by [new Chroma(embeddings, dbConfig)]. *)
Record Handle : Type := mkHandle { collectionName : string; url : string }.

(** Modelled from the spec: the identifiers of a write by the adapter,
    which is not part of the sources.  An upsert takes identifiers and the
    source passes none, so the adapter issues them itself, one per entry;
    its generator is a counter here, so that an identifier is issued
    once. *)
Definition newIds (n : nat) : Run.M (Vector := Vector) (list Chroma.Id) :=
  fun w => (inr (seq (uuids w) n),
            mkWorld (console w) (cwd w) (chroma w) (uuids w + n)).

(** The world once the collection of a handle is known to exist. *)
Definition opened (h : Handle) (w : World Vector) : World Vector :=
  mkWorld (console w) (cwd w)
          (Chroma.ensureCollection (collectionName h) (chroma w))
          (uuids w).

Definition ensureCollection (h : Handle) : Run.M (Vector := Vector) unit :=
  fun w => (inr tt, opened h w).

Definition collectionUpsert (h : Handle)
  (items : list (Chroma.Id * Chroma.Entry Vector)) : Run.M (Vector := Vector) unit :=
  fun w => (inr tt,
            mkWorld (console w) (cwd w)
                    (Chroma.upsertInto (collectionName h) items (chroma w))
                    (uuids w)).

Definition collectionQuery (h : Handle) (v : Vector) (k : nat)
  : Run.M (Vector := Vector) (list (Document * Q)) :=
  fun w => (inr (Chroma.query (Chroma.entries (chroma w) (collectionName h)) v k), w).

(** Modelled from the spec: the write of the adapter, which is not part of
    the sources; it stores one entry per (vector, document) pair. *)
Definition addVectors (h : Handle) (vectors : list Vector) (docs : list Document)
  : Run.M (Vector := Vector) (list Chroma.Id) :=
  match vectors with
  | [] => Run.ret []
  | _ =>
      if negb (length vectors =? length docs)%nat then
        Run.throw (Js.mkError "Error" "Vectors and metadatas must have the same length")
      else
        ids <- newIds (length vectors) ;;
        ensureCollection h ;;
        collectionUpsert h (combine ids (map (uncurry Chroma.toEntry) (combine vectors docs))) ;;
        Run.ret ids
  end.

(** Modelled from the spec: the embedding stage of the adapter's write,
    which is not part of the sources; the stages are sequential, every
    text is embedded before the store is written. *)
Definition addDocuments (h : Handle) (docs : list Document)
  : Run.M (Vector := Vector) (list Chroma.Id) :=
  vectors <- Run.lift (embedDocuments (map pageContent docs)) ;;
  addVectors h vectors docs.

(** Modelled from the spec: [Chroma.fromDocuments(docs, embeddings,
    dbConfig)] of the adapter, which is not part of the sources: a handle
    on the collection after the write of [docs]. *)
Definition fromDocuments (docs : list Document) (dbConfig : Handle)
  : Run.M (Vector := Vector) Handle :=
  addDocuments dbConfig docs ;;
  Run.ret dbConfig.

(** Modelled from the spec: [Chroma.fromExistingCollection(embeddings,
    dbConfig)] of the adapter, which is not part of the sources: a handle
    on the collection, created if it does not exist. *)
Definition fromExistingCollection (dbConfig : Handle)
  : Run.M (Vector := Vector) Handle :=
  ensureCollection dbConfig ;;
  Run.ret dbConfig.

(** Modelled from the spec: the reads of the adapter, which is not part
    of the sources.  The retriever embeds the question, queries the store
    with its [k] and returns the documents of the ranked results. *)
Definition similaritySearchVectorWithScore (h : Handle) (v : Vector) (k : nat)
  : Run.M (Vector := Vector) (list (Document * Q)) :=
  ensureCollection h ;;
  collectionQuery h v k.

Definition similaritySearch (h : Handle) (text : string) (k : nat)
  : Run.M (Vector := Vector) (list Document) :=
  v <- Run.lift (embedQuery text) ;;
  results <- similaritySearchVectorWithScore h v k ;;
  Run.ret (map fst results).

(** [vectorStore.asRetriever({ k })] and the retriever's [invoke]. *)
Record Retriever : Type := mkRetriever { store : Handle; k : nat }.

Definition asRetriever (h : Handle) (k : nat) : Retriever := mkRetriever h k.

Definition invoke (r : Retriever) (text : string)
  : Run.M (Vector := Vector) (list Document) :=
  similaritySearch (store r) text (k r).

(** The items of a write: one entry per (vector, document) pair, under the
    identifiers issued from [first] on. *)
Definition itemsOf (first : nat) (vectors : list Vector) (docs : list Document)
  : list (nat * Chroma.Entry Vector) :=
  combine (seq first (length vectors))
          (map (uncurry Chroma.toEntry) (combine vectors docs)).

(** The world a write of [docs] under [vectors] leaves. *)
Definition written (h : Handle) (vectors : list Vector)
  (docs : list Document) (w : World Vector) : World Vector :=
  match vectors with
  | [] => w
  | _ =>
      mkWorld (console w) (cwd w)
        (Chroma.upsertInto (collectionName h)
           (itemsOf (uuids w) vectors docs)
           (Chroma.ensureCollection (collectionName h) (chroma w)))
        (uuids w + length vectors)
  end.

End Adapter.

End VectorStore.

(** ** The configuration shared by [install.ts] and [app.ts] *)

Definition OLLAMA_BASE_URL : string := "http://localhost:11434".
Definition MODEL_NAME : string := "llama3.2:latest".
Definition EMBED_MODEL : string := "granite-embedding:278m".
Definition COLLECTION_NAME : string := "alice_wonderland_book".
Definition MARKDOWN_DIR : string := "./book".
Definition CHUNK_SIZE : nat := 1000.
Definition CHUNK_OVERLAP : nat := 200.

Definition CHROMA_CONFIG : VectorStore.Handle :=
  VectorStore.mkHandle COLLECTION_NAME "http://localhost:8000".

(** The text between the backquotes of [PromptTemplate.fromTemplate]. *)
Definition TEMPLATE : string :=
  Js.LF +:+ "      Answer the question based on the following context:" +:+
  Js.LF +:+ "      " +:+
  Js.LF +:+ "      Context: {context}" +:+
  Js.LF +:+ "      " +:+
  Js.LF +:+ "      Question: {question}" +:+
  Js.LF +:+ "      " +:+
  Js.LF +:+ "      Answer:" +:+
  Js.LF +:+ "    ".

(** The prompt template once parsed. *)
Definition PROMPT : list Prompt.Node :=
  [ Prompt.Literal (Js.LF +:+ "      Answer the question based on the following context:"
                    +:+ Js.LF +:+ "      " +:+ Js.LF +:+ "      Context: ");
    Prompt.Slot "context";
    Prompt.Literal (Js.LF +:+ "      " +:+ Js.LF +:+ "      Question: ");
    Prompt.Slot "question";
    Prompt.Literal (Js.LF +:+ "      " +:+ Js.LF +:+ "      Answer:" +:+ Js.LF +:+ "    ") ].

(** ** The functions both files define *)

Module Rag.

Section Pipeline.
Context {Vector : Type} `{!Embeddings Vector} `{!Metric Vector} `{!LanguageModel}.

Local Open Scope run_scope.

(** The argument of [ragChain.invoke]. *)
Record Input : Type := mkInput { question : string }.

Definition RagChain : Type := Input -> Run.M (Vector := Vector) string.

Definition getDataVectorStor : Run.M (Vector := Vector) VectorStore.Handle :=
  VectorStore.fromExistingCollection CHROMA_CONFIG.

(** A value placed in a template literal; a missing property reads
    [undefined]. *)
Definition toString (v : option string) : string :=
  match v with
  | Some s => s
  | None => "undefined"
  end.

(** The body of [docs.map]. *)
Definition formattedDoc (doc : Document) : string :=
  "Source: " +:+ toString (metadata doc !! "source") +:+ Js.LF +:+ pageContent doc.

(** The [context] entry of the first step of the chain. *)
Definition context (retriever : VectorStore.Retriever) (input : Input)
  : Run.M (Vector := Vector) string :=
  Run.console_log ("Retrieving documents for question: " +:+ question input) ;;
  docs <- VectorStore.invoke retriever (question input) ;;
  Run.console_log ("Retrieved " +:+ pretty (length docs) +:+ " documents") ;;
  let formattedDocs := map formattedDoc docs in
  Run.ret (Js.join (Js.LF +:+ Js.LF) formattedDocs).

(** The first step of the chain: the object with the two slots. *)
Definition slots (retriever : VectorStore.Retriever) (input : Input)
  : Run.M (Vector := Vector) (gmap string string) :=
  c <- context retriever input ;;
  let q := question input in
  Run.ret (<["context" := c]> (<["question" := q]> ∅)).

(** The first two steps: the assembled prompt. *)
Definition assemble (retriever : VectorStore.Retriever)
  (promptTemplate : list Prompt.Node) (input : Input)
  : Run.M (Vector := Vector) string :=
  values <- slots retriever input ;;
  Run.lift (Prompt.format promptTemplate values).

(** [StringOutputParser] on the text of a completion. *)
Definition StringOutputParser (text : string) : Run.M (Vector := Vector) string :=
  Run.ret text.

(** [RunnableSequence.from([...])]. *)
Definition ragChain (retriever : VectorStore.Retriever)
  (promptTemplate : list Prompt.Node) : RagChain :=
  fun input =>
    prompt <- assemble retriever promptTemplate input ;;
    completion <- Run.lift (generate prompt) ;;
    StringOutputParser completion.

Definition createRagPipeline (vectorStore : VectorStore.Handle)
  : Run.M (Vector := Vector) RagChain :=
  Run.console_log "Creating RAG pipeline..." ;;
  let retriever := VectorStore.asRetriever vectorStore 5 in
  promptTemplate <- Run.lift (Prompt.fromTemplate TEMPLATE) ;;
  Run.ret (ragChain retriever promptTemplate).

End Pipeline.

Arguments RagChain : clear implicits.

End Rag.

(** ** install.ts *)

Module Install.

(** The entries of a directory the loader turns into documents: the
    regular files whose name passes the extension filter, with their
    content, in directory order. *)
Definition markdownFiles (entries : list (string * Fs.Node)) : list (string * string) :=
  flat_map
    (fun entry =>
       match entry.2 with
       | Fs.File content =>
           if Js.endsWith entry.1 ".md" then [(entry.1, content)] else []
       | Fs.Dir _ => []
       end)
    entries.

Section Ingestion.
Context {Vector : Type} `{!Embeddings Vector} `{!Metric Vector} `{!LanguageModel}
        `{!TextSplitter}.

Local Open Scope run_scope.

(** The loop over [files]: one document per path, in order. *)
Fixpoint loadFiles (files : list string) (documents : list Document)
  : Run.M (Vector := Vector) (list Document) :=
  match files with
  | [] => Run.ret documents
  | file :: rest =>
      content <- Run.readFileSync file ;;
      let fileName := Path.basename file in
      loadFiles rest
        (documents ++
           [mkDocument content
              (<["source" := fileName]> (<["filePath" := file]> ∅))])
  end.

(** The first half of [processMarkdownFiles]: the listing, the filter and
    the loop that fills [documents]. *)
(** The document the loop builds for the entry [name] of the directory. *)
Definition documentOf (name content : string) : Document :=
  mkDocument content
    (<["source" := name]> (<["filePath" := Path.join [MARKDOWN_DIR; name]]> ∅)).

Definition loadDocuments : Run.M (Vector := Vector) (list Document) :=
  names <- Run.readdirSync MARKDOWN_DIR ;;
  let files :=
    map (fun file => Path.join [MARKDOWN_DIR; file])
        (List.filter (fun file => Js.endsWith file ".md") names) in
  loadFiles files [].

Definition processMarkdownFiles : Run.M (Vector := Vector) (list Document) :=
  Run.console_log "Processing markdown files..." ;;
  documents <- loadDocuments ;;
  splitDocs <- Run.lift (splitDocuments CHUNK_SIZE CHUNK_OVERLAP documents) ;;
  Run.console_log ("Split " +:+ pretty (length documents) +:+ " documents into "
                   +:+ pretty (length splitDocs) +:+ " chunks") ;;
  Run.ret splitDocs.

Definition createVectorStore (documents : list Document)
  : Run.M (Vector := Vector) VectorStore.Handle :=
  Run.console_log "Creating vector store..." ;;
  vectorStore <- VectorStore.fromDocuments documents CHROMA_CONFIG ;;
  Run.console_log "Vector store created successfully!" ;;
  Run.ret vectorStore.

Definition setupRag : Run.M (Vector := Vector) (Rag.RagChain Vector) :=
  Run.tryCatch
    (documents <- processMarkdownFiles ;;
     vectorStore <- createVectorStore documents ;;
     ragChain <- Rag.createRagPipeline vectorStore ;;
     Run.console_log "RAG system is ready to use!" ;;
     Run.ret ragChain)
    (fun error =>
       Run.console_error "Error setting up RAG system:" error ;;
       Run.throw error).

Definition main : Run.M (Vector := Vector) unit :=
  ragChain <- setupRag ;;
  Run.ret tt.

End Ingestion.

End Install.

(** ** app.ts *)

Module App.

Section Query.
Context {Vector : Type} `{!Embeddings Vector} `{!Metric Vector} `{!LanguageModel}.

Local Open Scope run_scope.

Definition setupRag : Run.M (Vector := Vector) (Rag.RagChain Vector) :=
  Run.tryCatch
    (vectorStore <- Rag.getDataVectorStor ;;
     ragChain <- Rag.createRagPipeline vectorStore ;;
     Run.console_log "RAG system is ready to use!" ;;
     Run.ret ragChain)
    (fun error =>
       Run.console_error "Error setting up RAG system:" error ;;
       Run.throw error).

Definition queryRag (ragChain : Rag.RagChain Vector) (question : string)
  : Run.M (Vector := Vector) string :=
  Run.console_log ("Question: " +:+ question) ;;
  response <- ragChain (Rag.mkInput question) ;;
  Run.console_log ("Answer: " +:+ response) ;;
  Run.ret response.

(** A run of the query entry point on a list of questions; [main] asks
    four fixed ones. *)
Fixpoint queryAll (ragChain : Rag.RagChain Vector) (questions : list string)
  : Run.M (Vector := Vector) unit :=
  match questions with
  | [] => Run.ret tt
  | q :: rest => queryRag ragChain q ;; queryAll ragChain rest
  end.

Definition QUESTIONS : list string :=
  [ "Who is the main character ?"; "Who is the anti-protagonist ?";
    "Which places did Alice visit?"; "What is the cat name ?" ].

(** The query entry point on a list of questions. *)
Definition mainWith (questions : list string) : Run.M (Vector := Vector) unit :=
  ragChain <- setupRag ;;
  queryAll ragChain questions.

Definition main : Run.M (Vector := Vector) unit := mainWith QUESTIONS.

End Query.

End App.

(** ** The words of the specification for the context of a prompt *)

Module Spec.

(** The source identifier of a chunk. *)
Definition sourceIdentifier (d : Document) : string :=
  default "undefined" (metadata d !! "source").

(** A chunk text prefixed with its source identifier. *)
Definition prefixed (d : Document) : string :=
  "Source: " +:+ sourceIdentifier d +:+ Js.LF +:+ pageContent d.

(** Blocks joined by a blank line, in order. *)
Fixpoint blankLineJoined (blocks : list string) : string :=
  match blocks with
  | [] => ""
  | [b] => b
  | b :: rest => b +:+ Js.LF +:+ Js.LF +:+ blankLineJoined rest
  end.

Definition contextOf (docs : list Document) : string :=
  blankLineJoined (map prefixed docs).

(** The prompt around the two slots. *)
Definition promptOf (context question : string) : string :=
  Js.LF +:+ "      Answer the question based on the following context:" +:+
  Js.LF +:+ "      " +:+
  Js.LF +:+ "      Context: " +:+ context +:+
  Js.LF +:+ "      " +:+
  Js.LF +:+ "      Question: " +:+ question +:+
  Js.LF +:+ "      " +:+
  Js.LF +:+ "      Answer:" +:+
  Js.LF +:+ "    ".

(** The size of a context that keeps every block whole. *)
Fixpoint untruncatedLength (docs : list Document) : nat :=
  match docs with
  | [] => 0
  | [d] => String.length (prefixed d)
  | d :: rest => String.length (prefixed d) + 2 + untruncatedLength rest
  end.

End Spec.

(** ** Stand-ins for the external services, to run the program on
       concrete worlds *)

Module Demo.

Definition Vector : Type := Z.

(** An embedding service that answers: a text is sent to its length. *)
Definition online : Embeddings Vector := {|
  embedDocuments := fun texts => inr (map (fun t => Z.of_nat (String.length t)) texts);
  embedQuery := fun text => inr (Z.of_nat (String.length text))
|}.

Definition networkError : Js.Error := Js.mkError "TypeError" "fetch failed".

(** An embedding service that cannot be reached. *)
Definition offline : Embeddings Vector := {|
  embedDocuments := fun _ => inl networkError;
  embedQuery := fun _ => inl networkError
|}.

Definition metric : Metric Vector := {|
  similarity := fun u v => inject_Z (- Z.abs (u - v))
|}.

Definition model : LanguageModel := {|
  generate := fun prompt => inr "Alice"
|}.

(** A splitter that keeps every document whole. *)
Definition splitter : TextSplitter := {|
  splitDocuments := fun _ _ docs => inr docs
|}.

Definition tree : Fs.Node :=
  Fs.Dir [("book",
           Fs.Dir [("ch1.md", Fs.File "Alice was beginning to get very tired.");
                   ("notes.txt", Fs.File "not a chapter");
                   ("ch2.md", Fs.File "The Pool of Tears")]);
          ("package.json", Fs.File "{}")].

(** A world with the book on disk and an empty database. *)
Definition fresh : World Vector := mkWorld [] tree ∅ 0.

Definition chunk1 : Document :=
  mkDocument "Alice was beginning to get very tired."
    (<["source" := "ch1.md"]> (<["filePath" := "book/ch1.md"]> ∅)).

Definition chunk2 : Document :=
  mkDocument "The Pool of Tears"
    (<["source" := "ch2.md"]> (<["filePath" := "book/ch2.md"]> ∅)).

(** The world after one ingestion of the book. *)
Definition ingested : World Vector :=
  snd (@Install.main Vector online metric model splitter fresh).

(** The worlds after one and after two writes of the same two chunks. *)
Definition writtenOnce : World Vector :=
  snd (@Install.createVectorStore Vector online [chunk1; chunk2] fresh).

Definition writtenTwice : World Vector :=
  snd (@Install.createVectorStore Vector online [chunk1; chunk2] writtenOnce).

(** The retriever [createRagPipeline] builds. *)
Definition retriever : VectorStore.Retriever :=
  VectorStore.asRetriever CHROMA_CONFIG 5.

(** The first question of [main], and the world in which its documents
    are retrieved after the ingestion of the book. *)
Definition question : Rag.Input := Rag.mkInput "Who is the main character ?".

Definition asked : World Vector :=
  Run.logged
    (ConsoleLog ("Retrieving documents for question: " +:+ Rag.question question))
    ingested.

End Demo.

(** ** The statements both files run when they are loaded *)

Module TopLevel.

Section Statements.
Context {Vector : Type} `{!Embeddings Vector} `{!Metric Vector} `{!LanguageModel}
        `{!TextSplitter}.

(** [main().catch(console.error)] of [install.ts]: the handler prints the
    error alone, which is a [ConsoleError] with no text before it. *)
Definition install : Run.M (Vector := Vector) unit :=
  Run.tryCatch Install.main (fun error => Run.console_error "" error).

(** [main().catch(console.error)] of [app.ts]. *)
Definition app : Run.M (Vector := Vector) unit :=
  Run.tryCatch App.main (fun error => Run.console_error "" error).

End Statements.

End TopLevel.

(** ** What a computation keeps *)

Module Frame.

Section Relations.
Context {Vector : Type}.

(** A computation relates every world to the one it leaves, whether it
    returns or throws. *)
Definition keeps (R : relation (World Vector)) {A} (m : Run.M (Vector := Vector) A)
  : Prop :=
  forall w, R w (m w).2.

(** The files and the entries of every collection but [collectionName]
    are the same. *)
Definition elsewhere (collectionName : string) : relation (World Vector) :=
  fun w w' =>
    (forall other, other <> collectionName ->
                   Chroma.entries (chroma w) other = Chroma.entries (chroma w') other)
    /\ cwd w = cwd w'.

(** The console has only been added to. *)
Definition consoleGrows : relation (World Vector) :=
  fun w w' => console w `prefix_of` console w'.

(** The entries of [collectionName] are still there, unchanged. *)
Definition entriesKept (collectionName : string) : relation (World Vector) :=
  fun w w' =>
    forall id e,
      Chroma.entries (chroma w) collectionName !! id = Some e ->
      Chroma.entries (chroma w') collectionName !! id = Some e.

(** A computation that, when it returns, has just printed [line]. *)
Definition endsWithLine {A} (line : ConsoleLine) (m : Run.M (Vector := Vector) A)
  : Prop :=
  forall w a w', m w = (inr a, w') -> last (console w') = Some line.

End Relations.

End Frame.

(** ** Texts within texts *)

(** [part] occurs in [whole], as it is. *)
Definition occursIn (part whole : string) : Prop :=
  exists before after, whole = before +:+ part +:+ after.

(** ** More stand-ins *)

Module DemoMore.

(** A language model that cannot be reached. *)
Definition unreachable : LanguageModel := {|
  generate := fun _ => inl (Js.mkError "TypeError" "fetch failed")
|}.

(** A splitter that rejects its configuration. *)
Definition rejecting : TextSplitter := {|
  splitDocuments := fun _ _ _ =>
    inl (Js.mkError "Error" "Cannot have chunkOverlap >= chunkSize")
|}.

(** A working directory without a [book] directory. *)
Definition bookless : World Demo.Vector :=
  mkWorld [] (Fs.Dir [("package.json", Fs.File "{}")]) ∅ 0.



(** A book directory without a markdown file. *)
Definition notesEntries : list (string * Fs.Node) :=
  [("notes.txt", Fs.File "not a chapter"); ("img", Fs.Dir [])].

Definition onlyNotes : World Demo.Vector :=
  mkWorld [] (Fs.Dir [("book", Fs.Dir notesEntries)]) ∅ 0.

(** The entries of the book directory of [Demo.tree]. *)
Definition bookEntries : list (string * Fs.Node) :=
  [("ch1.md", Fs.File "Alice was beginning to get very tired.");
   ("notes.txt", Fs.File "not a chapter");
   ("ch2.md", Fs.File "The Pool of Tears")].

End DemoMore.

(** * Properties *)

#[local] Arguments String.append !_ _ : simpl nomatch.

(** ** Strings and arrays *)

Section JsFacts.

Lemma append_empty_r (s : string) : s +:+ "" = s.
Proof. induction s as [|c s IH]; simpl; [reflexivity | now rewrite IH]. Qed.

Lemma append_assoc (a b c : string) : (a +:+ b) +:+ c = a +:+ (b +:+ c).
Proof. induction a as [|x a IH]; simpl; [reflexivity | now rewrite IH]. Qed.

Lemma length_append (a b : string) :
  String.length (a +:+ b) = String.length a + String.length b.
Proof. induction a as [|x a IH]; simpl; [reflexivity | now rewrite IH]. Qed.

Lemma substring_whole (s : string) : substring 0 (String.length s) s = s.
Proof. induction s as [|c s IH]; simpl; [reflexivity | now rewrite IH]. Qed.

Lemma substring_suffix (p suffix : string) :
  substring (String.length p) (String.length suffix) (p +:+ suffix) = suffix.
Proof. induction p as [|c p IH]; simpl; [apply substring_whole | exact IH]. Qed.

Lemma substring_split (s : string) (k m : nat) :
  k + m = String.length s -> s = substring 0 k s +:+ substring k m s.
Proof.
  revert k m. induction s as [|c s IH]; intros k m Hlen; simpl in *.
  - destruct k, m; simpl; try reflexivity; discriminate.
  - destruct k as [|k]; simpl.
    + destruct m as [|m]; [discriminate|].
      injection Hlen as Hlen. subst m. now rewrite substring_whole.
    + f_equal. apply IH. lia.
Qed.

(** [endsWith] holds exactly of the strings that are some prefix followed
    by the suffix. *)
Lemma endsWith_iff (s suffix : string) :
  Js.endsWith s suffix = true <-> exists p, s = p +:+ suffix.
Proof.
  unfold Js.endsWith. split.
  - destruct (Nat.leb_spec (String.length suffix) (String.length s)) as [Hle|Hlt];
      [|discriminate].
    intros Heq. apply String.eqb_eq in Heq.
    exists (substring 0 (String.length s - String.length suffix) s).
    pose proof (substring_split s (String.length s - String.length suffix)
                  (String.length suffix) ltac:(lia)) as Hs.
    rewrite Heq in Hs. exact Hs.
  - intros [p ->]. rewrite length_append.
    destruct (Nat.leb_spec (String.length suffix)
                (String.length p + String.length suffix)) as [_|Hlt]; [|lia].
    replace (String.length p + String.length suffix - String.length suffix)
      with (String.length p) by lia.
    rewrite substring_suffix. apply String.eqb_refl.
Qed.

Lemma endsWith_length (s suffix : string) :
  Js.endsWith s suffix = true -> String.length suffix <= String.length s.
Proof. intros [p ->]%endsWith_iff. rewrite length_append. lia. Qed.

(** The loop of [join] only ever extends what it has built, and past the
    first element its counter no longer matters. *)
Lemma join_loop_acc (sep R : string) (k k' : nat) (l : list string) :
  Js.join_loop sep R (S k) l = R +:+ Js.join_loop sep "" (S k') l.
Proof.
  revert R k k'. induction l as [|x l IH]; intros R k k'; simpl.
  - now rewrite append_empty_r.
  - rewrite (IH ((R +:+ sep) +:+ x) (S k) 0), (IH (sep +:+ x) (S k') 0).
    now rewrite !append_assoc.
Qed.

Lemma join_nil (sep : string) : Js.join sep [] = "".
Proof. reflexivity. Qed.

Lemma join_singleton (sep x : string) : Js.join sep [x] = x.
Proof. reflexivity. Qed.

Lemma join_cons (sep x y : string) (l : list string) :
  Js.join sep (x :: y :: l) = x +:+ sep +:+ Js.join sep (y :: l).
Proof.
  unfold Js.join. simpl.
  rewrite (join_loop_acc sep ((x +:+ sep) +:+ y) 1 0), (join_loop_acc sep y 0 0).
  now rewrite !append_assoc.
Qed.

End JsFacts.

(** ** Paths and the file system *)

Section PathFacts.

Lemma noSep_split (s : string) : Path.noSep s = true -> Path.split s = [s].
Proof.
  induction s as [|c s IH]; simpl; [reflexivity|].
  intros [Hc Hs]%andb_prop. apply negb_true_iff in Hc. rewrite Hc.
  now rewrite (IH Hs).
Qed.

Lemma noSep_append (a b : string) :
  Path.noSep (a +:+ b) = Path.noSep a && Path.noSep b.
Proof.
  induction a as [|c a IH]; simpl; [reflexivity|].
  now rewrite IH, andb_assoc.
Qed.

Lemma validName_inv (name : string) :
  Fs.validName name = true ->
  name <> "" /\ name <> "." /\ name <> ".." /\ Path.noSep name = true.
Proof.
  unfold Fs.validName.
  intros [[[H1 H2]%andb_prop H3]%andb_prop H4]%andb_prop.
  apply negb_true_iff, String.eqb_neq in H1, H2, H3. auto.
Qed.

(** A path that ends with a valid name has no trailing separator. *)
Lemma no_trailing_separator (p name : string) :
  name <> "" -> Path.noSep name = true ->
  Path.trailingSeparator (p +:+ name) = false.
Proof.
  intros Hne Hsep. unfold Path.trailingSeparator.
  destruct (Js.endsWith (p +:+ name) "/") eqn:E; [|reflexivity].
  exfalso. apply endsWith_iff in E as [q Hq].
  revert q Hq. induction p as [|c p IH]; intros q Hq; simpl in Hq.
  - rewrite Hq, noSep_append in Hsep. simpl in Hsep.
    now rewrite andb_false_r in Hsep.
  - destruct q as [|c' q]; simpl in Hq.
    + injection Hq as _ Hq. destruct p; simpl in Hq; [contradiction | discriminate].
    + injection Hq as _ Hq. now apply (IH q).
Qed.

Lemma normalizeSegments_name (allowAboveRoot : bool) (res : list string)
  (name : string) :
  Fs.validName name = true ->
  Path.normalizeSegments allowAboveRoot res [name] = rev (name :: res).
Proof.
  intros (H1 & H2 & H3 & _)%validName_inv.
  apply String.eqb_neq in H1, H2, H3.
  simpl. now rewrite H1, H2, H3.
Qed.

(** The full path of an entry of the book directory. *)
Lemma join_MARKDOWN_DIR (name : string) :
  Fs.validName name = true ->
  Path.join [MARKDOWN_DIR; name] = "book/" +:+ name.
Proof.
  intros Hv. pose proof (validName_inv _ Hv) as (Hne & _ & _ & Hsep).
  unfold Path.join, MARKDOWN_DIR.
  rewrite filter_cons_True by discriminate.
  rewrite filter_cons_True by exact Hne.
  rewrite filter_nil, join_cons, join_singleton.
  unfold Path.normalize. simpl.
  rewrite (noSep_split _ Hsep).
  rewrite (normalizeSegments_name true ["book"] name Hv). simpl rev.
  rewrite join_cons, join_singleton.
  change (String "." (String "/" (String "b" (String "o" (String "o"
            (String "k" (String "/" name)))))))
    with ("./book/" +:+ name).
  rewrite (no_trailing_separator "./book/" name Hne Hsep).
  reflexivity.
Qed.

(** The base name of that path is the name of the entry. *)
Lemma basename_MARKDOWN_DIR (name : string) :
  Fs.validName name = true ->
  Path.basename (Path.join [MARKDOWN_DIR; name]) = name.
Proof.
  intros Hv. rewrite (join_MARKDOWN_DIR _ Hv).
  pose proof (validName_inv _ Hv) as (Hne & _ & _ & Hsep).
  unfold Path.basename. simpl. rewrite (noSep_split _ Hsep). simpl.
  now rewrite filter_cons_True by exact Hne.
Qed.

Lemma assoc_In (entries : list (string * Fs.Node)) (name : string) (node : Fs.Node) :
  NoDup (map fst entries) -> In (name, node) entries ->
  Fs.assoc name entries = Some node.
Proof.
  induction entries as [|[n x] entries IH]; simpl; [contradiction|].
  intros Hnd [Heq | Hin].
  - injection Heq as -> ->. now rewrite String.eqb_refl.
  - apply NoDup_cons in Hnd as [Hn Hnd].
    destruct (String.eqb_spec n name) as [->|Hne].
    + exfalso. apply Hn. apply list_elem_of_In.
      change name with (fst (name, node)). now apply in_map.
    + now apply IH.
Qed.

(** The full path of an entry of the book directory resolves to that
    entry. *)
Lemma resolve_entry (tree : Fs.Node) entries (name : string) :
  Fs.resolve tree MARKDOWN_DIR = Some (Fs.Dir entries) ->
  Fs.validName name = true ->
  Fs.resolve tree ("book/" +:+ name) = Fs.assoc name entries.
Proof.
  intros Hdir Hv.
  pose proof (validName_inv _ Hv) as (_ & _ & _ & Hsep).
  unfold Fs.resolve, Fs.segments in *. simpl in *.
  rewrite (noSep_split _ Hsep).
  rewrite (normalizeSegments_name false ["book"] name Hv).
  simpl in *. destruct tree as [|top]; [discriminate|].
  destruct (Fs.assoc "book" top) as [book|]; [|discriminate].
  injection Hdir as ->. now destruct (Fs.assoc name entries).
Qed.

(** Reading the full path of an entry reads that entry. *)
Lemma readFileSync_entry (tree : Fs.Node) entries (name content : string) :
  Fs.resolve tree MARKDOWN_DIR = Some (Fs.Dir entries) ->
  Fs.wellFormedDir entries ->
  In (name, Fs.File content) entries ->
  Fs.readFileSync tree (Path.join [MARKDOWN_DIR; name]) = inr content.
Proof.
  intros Hdir [Hnd Hvalid] Hin.
  assert (Hv : Fs.validName name = true).
  { rewrite Forall_forall in Hvalid.
    apply (Hvalid (name, Fs.File content)). now apply list_elem_of_In. }
  pose proof (validName_inv _ Hv) as (Hne & _ & _ & Hsep).
  rewrite (join_MARKDOWN_DIR _ Hv).
  unfold Fs.readFileSync.
  rewrite (resolve_entry _ _ _ Hdir Hv), (assoc_In _ _ _ Hnd Hin).
  now rewrite (no_trailing_separator "book/" name Hne Hsep).
Qed.

End PathFacts.

(** ** The monad of the program *)

Section RunFacts.
Context {Vector : Type}.

Lemma bind_inr {A B} (m : Run.M (Vector := Vector) A) (k : A -> Run.M B) w a w' :
  m w = (inr a, w') -> Run.bind m k w = k a w'.
Proof. unfold Run.bind. now intros ->. Qed.

Lemma bind_inl {A B} (m : Run.M (Vector := Vector) A) (k : A -> Run.M B) w e w' :
  m w = (inl e, w') -> Run.bind m k w = (inl e, w').
Proof. unfold Run.bind. now intros ->. Qed.

End RunFacts.

(** ** The document loader *)

Section LoaderFacts.
Context {Vector : Type}.

Lemma markdownFiles_In entries (name content : string) :
  In (name, content) (Install.markdownFiles entries) <->
  In (name, Fs.File content) entries /\ Js.endsWith name ".md" = true.
Proof.
  unfold Install.markdownFiles. rewrite in_flat_map. split.
  - intros ([n [c|sub]] & Hin & Hout); simpl in Hout; [|contradiction].
    destruct (Js.endsWith n ".md") eqn:E; [|contradiction].
    destruct Hout as [Heq|[]]. injection Heq as -> ->. auto.
  - intros [Hin Hmd]. exists (name, Fs.File content). split; [exact Hin|].
    simpl. rewrite Hmd. now left.
Qed.

(** When every entry that passes the filter is a regular file, the names
    the filter keeps are those of [markdownFiles]. *)
Lemma markdownFiles_names entries :
  (forall name node, In (name, node) entries -> Js.endsWith name ".md" = true ->
                     exists content, node = Fs.File content) ->
  map fst (Install.markdownFiles entries)
  = List.filter (fun file => Js.endsWith file ".md") (map fst entries).
Proof.
  induction entries as [|[n node] entries IH]; intros Hfiles; [reflexivity|].
  unfold Install.markdownFiles in *. simpl.
  rewrite map_app, IH by (intros ? ? ?; apply Hfiles; now right).
  destruct (Js.endsWith n ".md") eqn:E.
  - destruct (Hfiles n node (or_introl eq_refl) E) as [c ->]. reflexivity.
  - now destruct node.
Qed.

Lemma markdownFiles_NoDup entries :
  NoDup (map fst entries) -> NoDup (map fst (Install.markdownFiles entries)).
Proof.
  induction entries as [|[n node] entries IH]; intros Hnd; [constructor|].
  simpl in Hnd. apply NoDup_cons in Hnd as [Hn Hnd].
  unfold Install.markdownFiles in *. simpl. rewrite map_app.
  destruct node as [c|sub]; simpl; [|now apply IH].
  destruct (Js.endsWith n ".md"); simpl; [|now apply IH].
  apply NoDup_cons. split; [|now apply IH].
  intros Hin. apply Hn.
  apply list_elem_of_In, in_map_iff in Hin as ([n' c'] & Heq & Hin).
  simpl in Heq. subst n'.
  apply (markdownFiles_In entries n c') in Hin as [Hin _].
  apply list_elem_of_In. change n with (fst (n, Fs.File c')). now apply in_map.
Qed.


(** The loop appends one document per file, in order. *)
Lemma loadFiles_entries (w : World Vector) entries (files : list (string * string))
  (documents : list Document) :
  Fs.resolve (cwd w) MARKDOWN_DIR = Some (Fs.Dir entries) ->
  Fs.wellFormedDir entries ->
  (forall name content, In (name, content) files -> In (name, Fs.File content) entries) ->
  Install.loadFiles (map (fun file => Path.join [MARKDOWN_DIR; file]) (map fst files))
    documents w
  = (inr (documents ++ map (fun f => Install.documentOf f.1 f.2) files), w).
Proof.
  intros Hdir Hwf. revert documents.
  induction files as [|[name content] files IH]; intros documents Hin; simpl.
  - unfold Run.ret. now rewrite app_nil_r.
  - assert (Hentry : In (name, Fs.File content) entries) by (apply Hin; now left).
    assert (Hv : Fs.validName name = true).
    { destruct Hwf as [_ Hvalid]. rewrite Forall_forall in Hvalid.
      apply (Hvalid (name, Fs.File content)). now apply list_elem_of_In. }
    erewrite bind_inr; cycle 1.
    { unfold Run.readFileSync.
      now rewrite (readFileSync_entry _ _ _ _ Hdir Hwf Hentry). }
    rewrite IH by (intros ? ? ?; apply Hin; now right).
    rewrite (basename_MARKDOWN_DIR _ Hv).
    now rewrite <- app_assoc.
Qed.



(** The loader returns the documents of the markdown files, in directory
    order, and leaves the world as it found it. *)
Lemma loadDocuments_markdownFiles (w : World Vector) entries :
  Fs.resolve (cwd w) MARKDOWN_DIR = Some (Fs.Dir entries) ->
  Fs.wellFormedDir entries ->
  (forall name node, In (name, node) entries -> Js.endsWith name ".md" = true ->
                     exists content, node = Fs.File content) ->
  Install.loadDocuments w
  = (inr (map (fun f => Install.documentOf f.1 f.2) (Install.markdownFiles entries)), w).
Proof.
  intros Hdir Hwf Hfiles. unfold Install.loadDocuments.
  erewrite bind_inr; cycle 1.
  { unfold Run.readdirSync, Fs.readdirSync. now rewrite Hdir. }
  rewrite <- (markdownFiles_names _ Hfiles).
  rewrite (loadFiles_entries w entries _ [] Hdir Hwf); [reflexivity|].
  intros name content Hin. now apply markdownFiles_In in Hin.
Qed.


End LoaderFacts.



(** ** The Chroma database *)

Section ChromaFacts.
Context {Vector : Type} `{!Metric Vector}.

Implicit Types (db : Chroma.Db Vector) (c : gmap Chroma.Id (Chroma.Entry Vector)).

Lemma entries_ensureCollection (name name' : string) db :
  Chroma.entries (Chroma.ensureCollection name db) name' = Chroma.entries db name'.
Proof.
  unfold Chroma.entries, Chroma.ensureCollection.
  destruct (db !! name) eqn:E; [reflexivity|].
  destruct (decide (name = name')) as [<-|Hne].
  - now rewrite lookup_insert_eq, E.
  - now rewrite lookup_insert_ne.
Qed.

Lemma entries_upsertInto (name : string) items db :
  Chroma.entries (Chroma.upsertInto name items db) name
  = Chroma.upsert items (Chroma.entries db name).
Proof. unfold Chroma.entries at 1, Chroma.upsertInto. now rewrite lookup_insert_eq. Qed.

Lemma entries_upsertInto_ne (name name' : string) items db :
  name <> name' ->
  Chroma.entries (Chroma.upsertInto name items db) name' = Chroma.entries db name'.
Proof.
  intros Hne. unfold Chroma.entries, Chroma.upsertInto. now rewrite lookup_insert_ne.
Qed.

Lemma upsert_cons (i : Chroma.Id) (e : Chroma.Entry Vector) items c :
  Chroma.upsert ((i, e) :: items) c = Chroma.upsert items (<[i := e]> c).
Proof. reflexivity. Qed.

(** An upsert only touches the identifiers it is given. *)
Lemma upsert_lookup_other items c (id : Chroma.Id) :
  ~ In id (map fst items) -> Chroma.upsert items c !! id = c !! id.
Proof.
  revert c. induction items as [|[i e] items IH]; intros c Hout; [reflexivity|].
  rewrite upsert_cons, IH by (intros H; apply Hout; now right).
  apply lookup_insert_ne. intros ->. apply Hout. now left.
Qed.

Lemma upsert_lookup_inv items c (id : Chroma.Id) :
  is_Some (Chroma.upsert items c !! id) -> is_Some (c !! id) \/ In id (map fst items).
Proof.
  revert c. induction items as [|[i e] items IH]; intros c Hsome; [now left|].
  rewrite upsert_cons in Hsome. apply IH in Hsome as [Hsome|Hin].
  - simpl in Hsome. destruct (decide (i = id)) as [->|Hne].
    + right. now left.
    + left. now rewrite lookup_insert_ne in Hsome.
  - right. now right.
Qed.

(** Under new, distinct identifiers an upsert adds one entry per item. *)
Lemma upsert_size_fresh items c :
  NoDup (map fst items) ->
  (forall id, In id (map fst items) -> c !! id = None) ->
  size (Chroma.upsert items c) = size c + length items.
Proof.
  revert c. induction items as [|[i e] items IH]; intros c Hnd Hfresh.
  - simpl. lia.
  - simpl in Hnd. apply NoDup_cons in Hnd as [Hi Hnd].
    rewrite upsert_cons, IH; [| exact Hnd |].
    + simpl. rewrite map_size_insert_None by (apply Hfresh; now left). lia.
    + intros id Hid. simpl. rewrite lookup_insert_ne.
      * apply Hfresh. now right.
      * intros ->. apply Hi. now apply list_elem_of_In.
Qed.

(** Under identifiers already present an upsert adds nothing. *)
Lemma upsert_size_present items c :
  (forall id, In id (map fst items) -> is_Some (c !! id)) ->
  size (Chroma.upsert items c) = size c.
Proof.
  revert c. induction items as [|[i e] items IH]; intros c Hpresent; [reflexivity|].
  rewrite upsert_cons, IH.
  - simpl. destruct (Hpresent i (or_introl eq_refl)) as [x Hx].
    now rewrite map_size_insert_Some.
  - intros id Hid. simpl. destruct (decide (i = id)) as [->|Hne].
    + rewrite lookup_insert_eq. eauto.
    + rewrite lookup_insert_ne by exact Hne. apply Hpresent. now right.
Qed.

#[local] Instance nearer_transitive : Transitive Chroma.nearer.
Proof. intros a b c Hab Hbc. unfold Chroma.nearer in *. eapply Qle_trans; eassumption. Qed.

#[local] Instance nearer_total : Total Chroma.nearer.
Proof.
  intros a b. unfold Chroma.nearer.
  destruct (Qlt_le_dec a.2 b.2) as [Hlt|Hle]; [right | left].
  - now apply Qlt_le_weak.
  - exact Hle.
Qed.

Lemma query_length c (v : Vector) (k : nat) : length (Chroma.query c v k) <= k.
Proof. unfold Chroma.query. rewrite length_take. lia. Qed.

Lemma query_sorted c (v : Vector) (k : nat) :
  StronglySorted Chroma.nearer (Chroma.query c v k).
Proof.
  unfold Chroma.query.
  apply (StronglySorted_app_1_l _ _ (drop k (merge_sort Chroma.nearer (Chroma.scored v c)))).
  rewrite take_drop. apply StronglySorted_merge_sort; apply _.
Qed.

(** Every result is an entry of the collection with its score. *)
Lemma query_from_collection c (v : Vector) (k : nat) (d : Document) (s : Q) :
  In (d, s) (Chroma.query c v k) ->
  exists id e, c !! id = Some e /\ d = Chroma.toDocument e
               /\ s = similarity v (Chroma.embedding e).
Proof.
  unfold Chroma.query. intros Hin%list_elem_of_In.
  apply elem_of_take in Hin as (i & Hi & _).
  apply list_elem_of_lookup_2 in Hi.
  rewrite merge_sort_Permutation in Hi.
  apply list_elem_of_In, in_map_iff in Hi as ([id e] & Heq & Hin).
  injection Heq as <- <-.
  apply list_elem_of_In, elem_of_map_to_list in Hin. eauto.
Qed.

Lemma query_empty (v : Vector) (k : nat) : Chroma.query (∅ : gmap _ _) v k = [].
Proof. unfold Chroma.query, Chroma.scored. rewrite map_to_list_empty. now destruct k. Qed.

End ChromaFacts.

(** ** Writing to the vector store *)

Section WriteFacts.
Context {Vector : Type} `{!Embeddings Vector} `{!Metric Vector}.

Lemma fst_combine {A B} (l : list A) (l' : list B) :
  length l <= length l' -> map fst (combine l l') = l.
Proof.
  revert l'. induction l as [|x l IH]; intros [|y l'] Hlen; simpl in *;
    try reflexivity; try lia.
  f_equal. apply IH. lia.
Qed.

Lemma itemsOf_ids (first : nat) (vectors : list Vector) docs :
  length vectors = length docs ->
  map fst (VectorStore.itemsOf first vectors docs) = seq first (length docs).
Proof.
  intros Hlen. unfold VectorStore.itemsOf. rewrite fst_combine, Hlen; [reflexivity|].
  rewrite length_seq, length_map, length_combine. lia.
Qed.

Lemma itemsOf_length (first : nat) (vectors : list Vector) docs :
  length vectors = length docs -> length (VectorStore.itemsOf first vectors docs) = length docs.
Proof.
  intros Hlen. rewrite <- (length_map fst), itemsOf_ids by exact Hlen.
  apply length_seq.
Qed.

Lemma addVectors_written h vectors docs (w : World Vector) :
  length vectors = length docs ->
  VectorStore.addVectors h vectors docs w
  = (inr (seq (uuids w) (length docs)), VectorStore.written h vectors docs w).
Proof.
  intros Hlen. destruct vectors as [|v vectors].
  - destruct docs; [reflexivity | discriminate].
  - unfold VectorStore.addVectors, VectorStore.written.
    rewrite Hlen, Nat.eqb_refl. simpl negb. cbv iota.
    unfold Run.bind, VectorStore.newIds, VectorStore.ensureCollection,
      VectorStore.collectionUpsert, Run.ret, VectorStore.itemsOf. simpl.
    now rewrite <- Hlen.
Qed.

Lemma addDocuments_written h docs vectors (w : World Vector) :
  embedDocuments (map pageContent docs) = inr vectors ->
  length vectors = length docs ->
  VectorStore.addDocuments h docs w
  = (inr (seq (uuids w) (length docs)), VectorStore.written h vectors docs w).
Proof.
  intros Hembed Hlen. unfold VectorStore.addDocuments.
  erewrite bind_inr by (unfold Run.lift; now rewrite Hembed).
  now apply addVectors_written.
Qed.

(** A write whose embedding fails leaves the world as it was. *)
Lemma addDocuments_embedding_error h docs (e : Js.Error) (w : World Vector) :
  embedDocuments (map pageContent docs) = inl e ->
  VectorStore.addDocuments h docs w = (inl e, w).
Proof.
  intros Hembed. unfold VectorStore.addDocuments.
  erewrite bind_inl; [reflexivity|]. unfold Run.lift. now rewrite Hembed.
Qed.

Lemma issued_fresh (w : World Vector) (name : string) (id : nat) :
  issued w -> uuids w <= id -> Chroma.entries (chroma w) name !! id = None.
Proof.
  intros Hissued Hge. unfold Chroma.entries.
  destruct (chroma w !! name) as [c|] eqn:E; simpl; [|apply lookup_empty].
  destruct (c !! id) eqn:Eid; [|reflexivity].
  assert (id < uuids w) by (eapply Hissued; eauto). lia.
Qed.

(** A write adds one entry per document to its collection. *)
Lemma written_count h vectors docs (w : World Vector) :
  issued w -> length vectors = length docs ->
  Chroma.count (chroma (VectorStore.written h vectors docs w)) (VectorStore.collectionName h)
  = Chroma.count (chroma w) (VectorStore.collectionName h) + length docs.
Proof.
  intros Hissued Hlen. unfold VectorStore.written.
  destruct vectors as [|v vs] eqn:Ev.
  - destruct docs; [simpl; lia | discriminate].
  - rewrite <- Ev in *. clear Ev. simpl. unfold Chroma.count.
    rewrite entries_upsertInto, entries_ensureCollection.
    rewrite upsert_size_fresh.
    + now rewrite itemsOf_length.
    + rewrite itemsOf_ids by exact Hlen. apply NoDup_seq.
    + intros id Hid. rewrite itemsOf_ids in Hid by exact Hlen.
      apply in_seq in Hid. apply issued_fresh; [exact Hissued | lia].
Qed.

Lemma written_other h vectors docs (w : World Vector) (name : string) :
  VectorStore.collectionName h <> name ->
  Chroma.entries (chroma (VectorStore.written h vectors docs w)) name
  = Chroma.entries (chroma w) name.
Proof.
  intros Hne. unfold VectorStore.written. destruct vectors; [reflexivity|]. simpl.
  now rewrite entries_upsertInto_ne, entries_ensureCollection.
Qed.

Lemma lookup_entries (db : gmap string (gmap nat (Chroma.Entry Vector)))
  (name : string) c (id : nat) :
  db !! name = Some c -> c !! id = Chroma.entries db name !! id.
Proof. intros H. unfold Chroma.entries. now rewrite H. Qed.

(** A write keeps every stored identifier among the issued ones. *)
Lemma written_issued h vectors docs (w : World Vector) :
  issued w -> length vectors = length docs -> issued (VectorStore.written h vectors docs w).
Proof.
  intros Hissued Hlen. unfold VectorStore.written.
  destruct vectors as [|v vs] eqn:Ev; [exact Hissued|].
  rewrite <- Ev in *. clear Ev.
  intros name c id Hc Hid. simpl in *.
  rewrite (lookup_entries _ _ _ _ Hc) in Hid.
  destruct (decide (VectorStore.collectionName h = name)) as [<-|Hne].
  - rewrite entries_upsertInto, entries_ensureCollection in Hid.
    apply upsert_lookup_inv in Hid as [Hold|Hnew].
    + destruct (le_lt_dec (uuids w) id) as [Hge|Hlt]; [|lia].
      rewrite (issued_fresh w _ id Hissued Hge) in Hold.
      now destruct Hold.
    + rewrite itemsOf_ids in Hnew by exact Hlen.
      apply in_seq in Hnew. lia.
  - rewrite entries_upsertInto_ne, entries_ensureCollection in Hid by exact Hne.
    destruct (le_lt_dec (uuids w) id) as [Hge|Hlt]; [|lia].
    rewrite (issued_fresh w _ id Hissued Hge) in Hid. now destruct Hid.
Qed.

End WriteFacts.

(** ** Re-running the write of [install.ts] *)

Section IngestionFacts.
Context {Vector : Type} `{!Embeddings Vector} `{!Metric Vector}.

Lemma issued_logged (line : ConsoleLine) (w : World Vector) :
  issued w -> issued (Run.logged line w).
Proof. intros H. exact H. Qed.

(** A successful [createVectorStore] logs, writes and logs. *)
Lemma createVectorStore_written (chunks : list Document) (vectors : list Vector)
  (w : World Vector) :
  embedDocuments (map pageContent chunks) = inr vectors ->
  length vectors = length chunks ->
  Install.createVectorStore chunks w
  = (inr CHROMA_CONFIG,
     Run.logged (ConsoleLog "Vector store created successfully!")
       (VectorStore.written CHROMA_CONFIG vectors chunks
          (Run.logged (ConsoleLog "Creating vector store...") w))).
Proof.
  intros Hembed Hlen. unfold Install.createVectorStore, VectorStore.fromDocuments.
  erewrite bind_inr by reflexivity.
  erewrite bind_inr; [reflexivity|].
  erewrite bind_inr; [reflexivity|].
  now apply addDocuments_written.
Qed.

Lemma createVectorStore_count (chunks : list Document) (vectors : list Vector)
  (w : World Vector) :
  issued w ->
  embedDocuments (map pageContent chunks) = inr vectors ->
  length vectors = length chunks ->
  exists w',
    Install.createVectorStore chunks w = (inr CHROMA_CONFIG, w')
    /\ issued w'
    /\ Chroma.count (chroma w') COLLECTION_NAME
       = Chroma.count (chroma w) COLLECTION_NAME + length chunks.
Proof.
  intros Hissued Hembed Hlen. eexists. split; [|split].
  - exact (createVectorStore_written chunks vectors w Hembed Hlen).
  - apply issued_logged, written_issued; [now apply issued_logged | exact Hlen].
  - change (Chroma.count
              (chroma (VectorStore.written CHROMA_CONFIG vectors chunks
                         (Run.logged (ConsoleLog "Creating vector store...") w)))
              (VectorStore.collectionName CHROMA_CONFIG)
            = Chroma.count (chroma w) COLLECTION_NAME + length chunks).
    rewrite written_count; [reflexivity | now apply issued_logged | exact Hlen].
Qed.

(** C1, as the code has it.  [createVectorStore] passes no identifiers, so
    each write stores its chunks under identifiers issued anew: a write of
    [n] chunks adds [n] entries, and writing the same chunks again adds
    [n] more. *)
Theorem second_write_adds_entries_again (chunks : list Document)
  (vectors : list Vector) (w : World Vector) :
  issued w ->
  embedDocuments (map pageContent chunks) = inr vectors ->
  length vectors = length chunks ->
  exists w1 w2,
    Install.createVectorStore chunks w = (inr CHROMA_CONFIG, w1)
    /\ Install.createVectorStore chunks w1 = (inr CHROMA_CONFIG, w2)
    /\ Chroma.count (chroma w1) COLLECTION_NAME
       = Chroma.count (chroma w) COLLECTION_NAME + length chunks
    /\ Chroma.count (chroma w2) COLLECTION_NAME
       = Chroma.count (chroma w1) COLLECTION_NAME + length chunks.
Proof.
  intros Hissued Hembed Hlen.
  destruct (createVectorStore_count chunks vectors w Hissued Hembed Hlen)
    as (w1 & Hrun1 & Hissued1 & Hcount1).
  destruct (createVectorStore_count chunks vectors w1 Hissued1 Hembed Hlen)
    as (w2 & Hrun2 & _ & Hcount2).
  exists w1, w2. auto.
Qed.

End IngestionFacts.

Lemma issued_fresh_world : issued Demo.fresh.
Proof. intros name c id Hc. vm_compute in Hc. discriminate. Qed.

Lemma second_write_adds_entries_again_witness :
  exists w1 w2,
    @Install.createVectorStore _ Demo.online [Demo.chunk1; Demo.chunk2] Demo.fresh
    = (inr CHROMA_CONFIG, w1)
    /\ @Install.createVectorStore _ Demo.online [Demo.chunk1; Demo.chunk2] w1
       = (inr CHROMA_CONFIG, w2)
    /\ Chroma.count (chroma w1) COLLECTION_NAME
       = Chroma.count (chroma Demo.fresh) COLLECTION_NAME + 2
    /\ Chroma.count (chroma w2) COLLECTION_NAME
       = Chroma.count (chroma w1) COLLECTION_NAME + 2.
Proof.
  apply (@second_write_adds_entries_again _ Demo.online
           [Demo.chunk1; Demo.chunk2] [38%Z; 17%Z] Demo.fresh).
  - exact issued_fresh_world.
  - reflexivity.
  - reflexivity.
Defined.

(** C1, as the specification states it, fails: after a second write of the
    same two chunks the collection holds four entries, not two. *)
Lemma second_write_not_idempotent :
  Chroma.count (chroma Demo.writtenOnce) COLLECTION_NAME = 2
  /\ Chroma.count (chroma Demo.writtenTwice) COLLECTION_NAME = 4
  /\ Chroma.count (chroma Demo.writtenTwice) COLLECTION_NAME
     <> Chroma.count (chroma Demo.writtenOnce) COLLECTION_NAME.
Proof. vm_compute. repeat split. discriminate. Qed.

(** ** A failure of the embedding service during ingestion *)

Section FailureFacts.
Context {Vector : Type} `{!Embeddings Vector} `{!Metric Vector} `{!LanguageModel}
        `{!TextSplitter}.

(** Reading files changes nothing, whether a read fails or not. *)
Lemma loadFiles_world (files : list string) (documents : list Document)
  (w : World Vector) :
  (Install.loadFiles files documents w).2 = w.
Proof.
  revert documents. induction files as [|file files IH]; intros documents; simpl.
  - reflexivity.
  - unfold Run.bind, Run.readFileSync.
    destruct (Fs.readFileSync (cwd w) file); [reflexivity | apply IH].
Qed.

Lemma loadDocuments_world (w : World Vector) : (Install.loadDocuments w).2 = w.
Proof.
  unfold Install.loadDocuments, Run.bind, Run.readdirSync.
  destruct (Fs.readdirSync (cwd w) MARKDOWN_DIR); [reflexivity | apply loadFiles_world].
Qed.

(** Loading and splitting only write to the console. *)
Lemma processMarkdownFiles_store (w : World Vector) :
  chroma (Install.processMarkdownFiles w).2 = chroma w
  /\ uuids (Install.processMarkdownFiles w).2 = uuids w.
Proof.
  unfold Install.processMarkdownFiles, Run.bind, Run.console_log, Run.lift, Run.ret.
  pose proof (loadDocuments_world (Run.logged (ConsoleLog "Processing markdown files...") w))
    as Hload.
  destruct (Install.loadDocuments _) as [[e|documents] w1]. simpl in Hload.
  - subst w1. auto.
  - simpl in Hload. subst w1.
    destruct (splitDocuments CHUNK_SIZE CHUNK_OVERLAP documents); auto.
Qed.

(** The chunks [processMarkdownFiles] returns are those the splitter made
    of the loaded documents, under the configured size and overlap; the
    program does not touch them. *)
Lemma processMarkdownFiles_split (w w' : World Vector) (chunks : list Document) :
  Install.processMarkdownFiles w = (inr chunks, w') ->
  exists documents,
    (Install.loadDocuments (Run.logged (ConsoleLog "Processing markdown files...") w)).1
    = inr documents
    /\ splitDocuments 1000 200 documents = inr chunks.
Proof.
  unfold Install.processMarkdownFiles, Run.bind, Run.console_log, Run.lift, Run.ret.
  destruct (Install.loadDocuments _) as [[e|documents] w1]; [discriminate|].
  change CHUNK_SIZE with 1000. change CHUNK_OVERLAP with 200.
  destruct (splitDocuments 1000 200 documents) as [e|splitDocs] eqn:E; [discriminate|].
  intros [= <- _]. exists documents. split; [reflexivity | exact E].
Qed.

(** C7, as the code has it.  When the embedding service fails with [e]
    on the chunks, [setupRag] stops at the write, prints one line with [e]
    on the error console and throws [e] itself; no entry is written and no
    identifier is issued. *)
Theorem embedding_failure_rethrown_without_write (w w1 : World Vector)
  (chunks : list Document) (e : Js.Error) :
  Install.processMarkdownFiles w = (inr chunks, w1) ->
  embedDocuments (map pageContent chunks) = inl e ->
  Install.setupRag w
  = (inl e,
     Run.logged (ConsoleError "Error setting up RAG system:" e)
       (Run.logged (ConsoleLog "Creating vector store...") w1))
  /\ chroma (Install.setupRag w).2 = chroma w
  /\ uuids (Install.setupRag w).2 = uuids w.
Proof.
  intros Hload Hembed.
  assert (Hrun : Install.setupRag w
                 = (inl e,
                    Run.logged (ConsoleError "Error setting up RAG system:" e)
                      (Run.logged (ConsoleLog "Creating vector store...") w1))).
  { unfold Install.setupRag, Run.tryCatch.
    erewrite bind_inr by exact Hload.
    erewrite bind_inl; [reflexivity|].
    unfold Install.createVectorStore.
    erewrite bind_inr by reflexivity.
    erewrite bind_inl; [reflexivity|].
    unfold VectorStore.fromDocuments.
    erewrite bind_inl; [reflexivity|].
    now apply addDocuments_embedding_error. }
  rewrite Hrun. split; [reflexivity|].
  destruct (processMarkdownFiles_store w) as [Hc Hu].
  rewrite Hload in Hc, Hu. simpl in *. auto.
Qed.

End FailureFacts.

Lemma embedding_failure_rethrown_without_write_witness :
  (@Install.setupRag _ Demo.offline Demo.metric Demo.model Demo.splitter Demo.fresh).1
  = inl Demo.networkError
  /\ chroma (@Install.setupRag _ Demo.offline Demo.metric Demo.model Demo.splitter
               Demo.fresh).2
     = chroma Demo.fresh.
Proof.
  destruct (@embedding_failure_rethrown_without_write _ Demo.offline Demo.metric
              Demo.model Demo.splitter Demo.fresh
              (@Install.processMarkdownFiles _ Demo.splitter Demo.fresh).2
              [Demo.chunk1; Demo.chunk2] Demo.networkError)
    as (Hrun & Hstore & _).
  - vm_compute. reflexivity.
  - reflexivity.
  - rewrite Hrun. split; [reflexivity|]. rewrite <- Hstore, Hrun. reflexivity.
Defined.

(** C7, as the specification states it, fails: with the embedding service
    unreachable the error [setupRag] throws is the [TypeError] of the
    failed request, not an [EmbeddingServiceError], and the line it prints
    names no stage. *)
Lemma embedding_failure_not_wrapped :
  let run := @Install.setupRag _ Demo.offline Demo.metric Demo.model Demo.splitter
               Demo.fresh in
  run.1 = inl (Js.mkError "TypeError" "fetch failed")
  /\ Js.name (Js.mkError "TypeError" "fetch failed") <> "EmbeddingServiceError"
  /\ last (console run.2) = Some (ConsoleError "Error setting up RAG system:"
                                   (Js.mkError "TypeError" "fetch failed")).
Proof. vm_compute. repeat split. discriminate. Qed.

(** ** The query pipeline leaves the store alone *)

Create HintDb readonly.

Section ReadOnlyFacts.
Context {Vector : Type} `{!Embeddings Vector} `{!Metric Vector} `{!LanguageModel}.

Lemma sameStore_refl (w : World Vector) : Run.sameStore w w.
Proof. now repeat split. Qed.

Lemma sameStore_trans (w1 w2 w3 : World Vector) :
  Run.sameStore w1 w2 -> Run.sameStore w2 w3 -> Run.sameStore w1 w3.
Proof.
  intros (He & Hu & Hf) (He' & Hu' & Hf').
  split; [intros name; now rewrite He, He' | split; congruence].
Qed.

Lemma sameStore_logged (line : ConsoleLine) (w : World Vector) :
  Run.sameStore w (Run.logged line w).
Proof. now repeat split. Qed.

Lemma sameStore_opened (h : VectorStore.Handle) (w : World Vector) :
  Run.sameStore w (VectorStore.opened h w).
Proof.
  repeat split. intros name. simpl. now rewrite entries_ensureCollection.
Qed.

Lemma readOnly_ret {A} (a : A) : Run.readOnly (Vector := Vector) (Run.ret a).
Proof. intros w. apply sameStore_refl. Qed.

Lemma readOnly_throw {A} (e : Js.Error) :
  Run.readOnly (Vector := Vector) (Run.throw (A := A) e).
Proof. intros w. apply sameStore_refl. Qed.

Lemma readOnly_lift {A} (r : Js.Error + A) : Run.readOnly (Vector := Vector) (Run.lift r).
Proof. intros w. apply sameStore_refl. Qed.

Lemma readOnly_console_log (text : string) :
  Run.readOnly (Vector := Vector) (Run.console_log text).
Proof. intros w. apply sameStore_logged. Qed.

Lemma readOnly_console_error (text : string) (e : Js.Error) :
  Run.readOnly (Vector := Vector) (Run.console_error text e).
Proof. intros w. apply sameStore_logged. Qed.

Lemma readOnly_ensureCollection (h : VectorStore.Handle) :
  Run.readOnly (Vector := Vector) (VectorStore.ensureCollection h).
Proof. intros w. apply sameStore_opened. Qed.

Lemma readOnly_collectionQuery (h : VectorStore.Handle) (v : Vector) (k : nat) :
  Run.readOnly (VectorStore.collectionQuery h v k).
Proof. intros w. apply sameStore_refl. Qed.

(** Sequencing: the continuation needs to be read-only on what the first
    computation can return. *)
Lemma readOnly_bind_returns {A B} (P : A -> Prop)
  (m : Run.M (Vector := Vector) A) (k : A -> Run.M B) :
  Run.readOnly m -> Run.returns P m -> (forall a, P a -> Run.readOnly (k a)) ->
  Run.readOnly (Run.bind m k).
Proof.
  intros Hm HP Hk w. unfold Run.bind.
  pose proof (Hm w) as Hw. destruct (m w) as [[e|a] w'] eqn:E; [exact Hw|].
  eapply sameStore_trans; [exact Hw|]. apply (Hk a). eapply HP, E.
Qed.

Lemma readOnly_bind {A B} (m : Run.M (Vector := Vector) A) (k : A -> Run.M B) :
  Run.readOnly m -> (forall a, Run.readOnly (k a)) -> Run.readOnly (Run.bind m k).
Proof.
  intros Hm Hk. apply (readOnly_bind_returns (fun _ => True)); auto.
  now intros w a w' _.
Qed.

Lemma readOnly_tryCatch {A} (m : Run.M (Vector := Vector) A) (handler : Js.Error -> Run.M A) :
  Run.readOnly m -> (forall e, Run.readOnly (handler e)) ->
  Run.readOnly (Run.tryCatch m handler).
Proof.
  intros Hm Hh w. unfold Run.tryCatch.
  pose proof (Hm w) as Hw. destruct (m w) as [[e|a] w'] eqn:E; [|exact Hw].
  eapply sameStore_trans; [exact Hw|]. apply Hh.
Qed.

#[local] Hint Resolve readOnly_ret readOnly_throw readOnly_lift readOnly_console_log
  readOnly_console_error readOnly_ensureCollection readOnly_collectionQuery
  readOnly_bind readOnly_tryCatch : readonly.

Lemma readOnly_invoke (r : VectorStore.Retriever) (text : string) :
  Run.readOnly (VectorStore.invoke r text).
Proof.
  unfold VectorStore.invoke, VectorStore.similaritySearch,
    VectorStore.similaritySearchVectorWithScore.
  auto 10 with readonly.
Qed.

#[local] Hint Resolve readOnly_invoke : readonly.

Lemma readOnly_ragChain (r : VectorStore.Retriever) (nodes : list Prompt.Node)
  (input : Rag.Input) :
  Run.readOnly (Rag.ragChain r nodes input).
Proof.
  unfold Rag.ragChain, Rag.assemble, Rag.slots, Rag.context, Rag.StringOutputParser.
  auto 15 with readonly.
Qed.

Lemma readOnly_queryRag (chain : Rag.RagChain Vector) (question : string) :
  (forall input, Run.readOnly (chain input)) ->
  Run.readOnly (App.queryRag chain question).
Proof. intros Hchain. unfold App.queryRag. auto 10 with readonly. Qed.

Lemma readOnly_queryAll (chain : Rag.RagChain Vector) (questions : list string) :
  (forall input, Run.readOnly (chain input)) ->
  Run.readOnly (App.queryAll chain questions).
Proof.
  intros Hchain. induction questions as [|q questions IH]; simpl.
  - apply readOnly_ret.
  - apply readOnly_bind; [now apply readOnly_queryRag | intros _; exact IH].
Qed.

Lemma fromTemplate_TEMPLATE : Prompt.fromTemplate TEMPLATE = inr PROMPT.
Proof. reflexivity. Qed.

(** [createRagPipeline] logs and returns the chain over the retriever of
    the five nearest documents and the parsed template. *)
Lemma createRagPipeline_chain (vectorStore : VectorStore.Handle) (w : World Vector) :
  Rag.createRagPipeline vectorStore w
  = (inr (Rag.ragChain (VectorStore.asRetriever vectorStore 5) PROMPT),
     Run.logged (ConsoleLog "Creating RAG pipeline...") w).
Proof. reflexivity. Qed.

Lemma readOnly_createRagPipeline (vectorStore : VectorStore.Handle) :
  Run.readOnly (Rag.createRagPipeline (Vector := Vector) vectorStore).
Proof. intros w. rewrite createRagPipeline_chain. apply sameStore_logged. Qed.

Lemma returns_createRagPipeline (vectorStore : VectorStore.Handle) :
  Run.returns (fun chain : Rag.RagChain Vector => forall input, Run.readOnly (chain input))
    (Rag.createRagPipeline vectorStore).
Proof.
  intros w chain w' Hrun. rewrite createRagPipeline_chain in Hrun.
  injection Hrun as <- _. apply readOnly_ragChain.
Qed.

Lemma readOnly_getDataVectorStor : Run.readOnly (Rag.getDataVectorStor (Vector := Vector)).
Proof.
  unfold Rag.getDataVectorStor, VectorStore.fromExistingCollection.
  auto with readonly.
Qed.

#[local] Hint Resolve readOnly_createRagPipeline readOnly_getDataVectorStor : readonly.

Lemma returns_bind {A B} (P : B -> Prop) (m : Run.M (Vector := Vector) A)
  (k : A -> Run.M B) :
  (forall a, Run.returns P (k a)) -> Run.returns P (Run.bind m k).
Proof.
  intros Hk w b w'. unfold Run.bind.
  destruct (m w) as [[e|a] w1]; [discriminate|]. apply Hk.
Qed.

Lemma returns_tryCatch_throw {A} (P : A -> Prop) (m : Run.M (Vector := Vector) A)
  (handler : Js.Error -> Run.M unit) :
  Run.returns P m ->
  Run.returns P (Run.tryCatch m (fun e => Run.bind (handler e) (fun _ => Run.throw e))).
Proof.
  intros Hm w a w'. unfold Run.tryCatch.
  destruct (m w) as [[e|a'] w1] eqn:E.
  - unfold Run.bind, Run.throw. destruct (handler e w1) as [[?|?] ?]; discriminate.
  - intros [= <- <-]. eapply Hm, E.
Qed.

Lemma readOnly_setupRag : Run.readOnly (App.setupRag (Vector := Vector)).
Proof.
  unfold App.setupRag. auto 10 with readonly.
Qed.

Lemma returns_setupRag :
  Run.returns (fun chain : Rag.RagChain Vector => forall input, Run.readOnly (chain input))
    (App.setupRag (Vector := Vector)).
Proof.
  unfold App.setupRag. apply returns_tryCatch_throw, returns_bind.
  intros vectorStore w chain w'. unfold Run.bind.
  rewrite createRagPipeline_chain. unfold Run.console_log, Run.ret.
  intros [= <- _]. apply readOnly_ragChain.
Qed.

Lemma readOnly_mainWith (questions : list string) :
  Run.readOnly (App.mainWith (Vector := Vector) questions).
Proof.
  unfold App.mainWith.
  eapply readOnly_bind_returns;
    [apply readOnly_setupRag | apply returns_setupRag |].
  intros chain Hchain. now apply readOnly_queryAll.
Qed.

End ReadOnlyFacts.

(** C10. A run of the query entry point, on any list of questions, leaves
    the entries of every collection as they were (identifiers, vectors,
    texts and metadata), issues no identifier and, with the four questions
    of [main], does so too; the ingestion entry point is the one that
    writes, as its run on the book shows. *)
Theorem query_entry_point_never_writes :
  (forall (Vector : Type) (E : Embeddings Vector) (D : Metric Vector)
          (L : LanguageModel) (questions : list string) (w : World Vector)
          (collectionName : string),
      Chroma.entries (chroma (App.mainWith questions w).2) collectionName
      = Chroma.entries (chroma w) collectionName
      /\ Chroma.entries (chroma (App.main w).2) collectionName
         = Chroma.entries (chroma w) collectionName
      /\ uuids (App.mainWith questions w).2 = uuids w)
  /\ Chroma.count (chroma Demo.fresh) COLLECTION_NAME = 0
  /\ Chroma.count
       (chroma (@Install.main _ Demo.online Demo.metric Demo.model Demo.splitter
                  Demo.fresh).2) COLLECTION_NAME = 2.
Proof.
  split; [|split; reflexivity].
  intros Vector E D L questions w name.
  destruct (readOnly_mainWith questions w) as (He & Hu & _).
  destruct (readOnly_mainWith App.QUESTIONS w) as (He' & _ & _).
  repeat split; [symmetry; apply He | symmetry; apply He' | symmetry; apply Hu].
Qed.

(** ** Retrieval *)

Section RetrievalFacts.
Context {Vector : Type} `{!Embeddings Vector} `{!Metric Vector} `{!LanguageModel}.

(** What the retriever returns when the question is embedded. *)
Lemma invoke_results (r : VectorStore.Retriever) (text : string) (v : Vector)
  (w : World Vector) :
  embedQuery text = inr v ->
  VectorStore.invoke r text w
  = (inr (map fst
            (Chroma.query
               (Chroma.entries (chroma w) (VectorStore.collectionName (VectorStore.store r)))
               v (VectorStore.k r))),
     VectorStore.opened (VectorStore.store r) w).
Proof.
  intros Hembed. unfold VectorStore.invoke, VectorStore.similaritySearch.
  erewrite bind_inr by (unfold Run.lift; now rewrite Hembed).
  unfold VectorStore.similaritySearchVectorWithScore, Run.bind,
    VectorStore.ensureCollection, VectorStore.collectionQuery, Run.ret.
  simpl. now rewrite entries_ensureCollection.
Qed.

(** C2. For a question the embedding service maps to the vector [v], the
    retriever with bound [k] (5 in [createRagPipeline]) returns the
    documents of the ranked results of the store: at most [k] of them,
    each an entry of the collection scored against [v], in order of
    non-increasing score. *)
Theorem retrieval_at_most_k_by_descending_score (r : VectorStore.Retriever)
  (text : string) (v : Vector) (w : World Vector) :
  embedQuery text = inr v ->
  let results :=
    Chroma.query
      (Chroma.entries (chroma w) (VectorStore.collectionName (VectorStore.store r)))
      v (VectorStore.k r) in
  VectorStore.invoke r text w
  = (inr (map fst results), VectorStore.opened (VectorStore.store r) w)
  /\ length (map fst results) <= VectorStore.k r
  /\ StronglySorted (fun a b : Document * Q => (b.2 <= a.2)%Q) results
  /\ (forall d s, In (d, s) results ->
        exists id e,
          Chroma.entries (chroma w) (VectorStore.collectionName (VectorStore.store r)) !! id
          = Some e
          /\ d = Chroma.toDocument e
          /\ s = similarity v (Chroma.embedding e)).
Proof.
  intros Hembed results. split; [|split; [|split]].
  - now apply invoke_results.
  - rewrite length_map. apply query_length.
  - apply query_sorted.
  - intros d s Hin. eapply query_from_collection, Hin.
Qed.

End RetrievalFacts.

Lemma retrieval_at_most_k_by_descending_score_witness :
  exists results,
    @VectorStore.invoke _ Demo.online Demo.metric Demo.retriever
      "Who is the main character ?" Demo.ingested
    = (inr (map fst results), VectorStore.opened CHROMA_CONFIG Demo.ingested)
    /\ length (map fst results) <= 5
    /\ StronglySorted (fun a b : Document * Q => (b.2 <= a.2)%Q) results.
Proof.
  destruct (@retrieval_at_most_k_by_descending_score _ Demo.online Demo.metric
              Demo.retriever "Who is the main character ?" 27%Z Demo.ingested)
    as (Hrun & Hlen & Hsorted & _).
  - reflexivity.
  - eexists. split; [exact Hrun|]. split; [exact Hlen | exact Hsorted].
Defined.

(** ** The prompt *)

Section PromptFacts.
Context {Vector : Type} `{!Embeddings Vector} `{!Metric Vector} `{!LanguageModel}.

(** [join] with a blank line is the concatenation the specification
    describes. *)
Lemma join_blankLineJoined (blocks : list string) :
  Js.join (Js.LF +:+ Js.LF) blocks = Spec.blankLineJoined blocks.
Proof.
  induction blocks as [|b [|b' blocks] IH]; [reflexivity | reflexivity |].
  rewrite join_cons, IH. cbn [Spec.blankLineJoined].
  now rewrite append_assoc.
Qed.

Lemma formattedDoc_prefixed (d : Document) : Rag.formattedDoc d = Spec.prefixed d.
Proof.
  unfold Rag.formattedDoc, Spec.prefixed, Spec.sourceIdentifier, Rag.toString.
  now destruct (metadata d !! "source").
Qed.

Lemma formattedDocs_context (docs : list Document) :
  Js.join (Js.LF +:+ Js.LF) (map Rag.formattedDoc docs) = Spec.contextOf docs.
Proof.
  rewrite join_blankLineJoined. unfold Spec.contextOf.
  now rewrite (map_ext _ _ formattedDoc_prefixed).
Qed.

(** The template with its two slots filled. *)
Lemma format_PROMPT (context question : string) :
  Prompt.format PROMPT (<["context" := context]> (<["question" := question]> ∅))
  = inr (Spec.promptOf context question).
Proof.
  unfold PROMPT. cbn [Prompt.format].
  rewrite lookup_insert_eq.
  rewrite lookup_insert_ne by discriminate. rewrite lookup_insert_eq.
  unfold Spec.promptOf. f_equal.
Qed.

(** The length of a context is the sum of its blocks and separators. *)
Lemma contextOf_length (docs : list Document) :
  String.length (Spec.contextOf docs) = Spec.untruncatedLength docs.
Proof.
  unfold Spec.contextOf.
  induction docs as [|d [|d' docs] IH]; [reflexivity | reflexivity |].
  cbn [map Spec.blankLineJoined Spec.untruncatedLength] in *.
  rewrite !length_append, IH. simpl. lia.
Qed.

(** The first step of the chain, once the retriever has returned. *)
Lemma slots_retrieved (r : VectorStore.Retriever) (input : Rag.Input)
  (docs : list Document) (w w1 : World Vector) :
  VectorStore.invoke r (Rag.question input)
    (Run.logged (ConsoleLog ("Retrieving documents for question: "
                             +:+ Rag.question input)) w)
  = (inr docs, w1) ->
  Rag.slots r input w
  = (inr (<["context" := Spec.contextOf docs]>
            (<["question" := Rag.question input]> ∅)),
     Run.logged (ConsoleLog ("Retrieved " +:+ pretty (length docs) +:+ " documents")) w1).
Proof.
  intros Hdocs. unfold Rag.slots, Rag.context.
  erewrite bind_inr; [reflexivity|].
  erewrite bind_inr by reflexivity.
  erewrite bind_inr by exact Hdocs.
  erewrite bind_inr by reflexivity.
  unfold Run.ret. now rewrite formattedDocs_context.
Qed.

Lemma assemble_retrieved (r : VectorStore.Retriever) (input : Rag.Input)
  (docs : list Document) (w w1 : World Vector) :
  VectorStore.invoke r (Rag.question input)
    (Run.logged (ConsoleLog ("Retrieving documents for question: "
                             +:+ Rag.question input)) w)
  = (inr docs, w1) ->
  Rag.assemble r PROMPT input w
  = (inr (Spec.promptOf (Spec.contextOf docs) (Rag.question input)),
     Run.logged (ConsoleLog ("Retrieved " +:+ pretty (length docs) +:+ " documents")) w1).
Proof.
  intros Hdocs. unfold Rag.assemble.
  erewrite bind_inr by (apply slots_retrieved, Hdocs).
  unfold Run.lift. now rewrite format_PROMPT.
Qed.

(** C3. Whatever the question and whatever documents the retriever
    returns, the [context] slot is the texts of these documents in
    retrieval order, each after a line with its source identifier, joined
    by a blank line; the [question] slot is the question itself; and the
    prompt is the template of [createRagPipeline] around the two. *)
Theorem prompt_slots_hold_context_and_question (r : VectorStore.Retriever)
  (input : Rag.Input) (docs : list Document) (w w1 : World Vector) :
  VectorStore.invoke r (Rag.question input)
    (Run.logged (ConsoleLog ("Retrieving documents for question: "
                             +:+ Rag.question input)) w)
  = (inr docs, w1) ->
  exists values w2,
    Rag.slots r input w = (inr values, w2)
    /\ values !! "context" = Some (Spec.contextOf docs)
    /\ values !! "question" = Some (Rag.question input)
    /\ Prompt.fromTemplate TEMPLATE = inr PROMPT
    /\ Rag.assemble r PROMPT input w
       = (inr (Spec.promptOf (Spec.contextOf docs) (Rag.question input)), w2).
Proof.
  intros Hdocs. eexists _, _.
  split; [exact (slots_retrieved r input docs w w1 Hdocs)|].
  split; [apply lookup_insert_eq|].
  split; [rewrite lookup_insert_ne by discriminate; apply lookup_insert_eq|].
  split; [reflexivity | exact (assemble_retrieved r input docs w w1 Hdocs)].
Qed.

(** C6, as the code has it.  The assembler has no size check: whatever
    limit a language model may have and however far the retrieved context
    exceeds it, the prompt is assembled, with every block of the context
    whole and in retrieval order. *)
Theorem oversized_context_assembled_whole (limit : nat) (r : VectorStore.Retriever)
  (input : Rag.Input) (docs : list Document) (w w1 : World Vector) :
  VectorStore.invoke r (Rag.question input)
    (Run.logged (ConsoleLog ("Retrieving documents for question: "
                             +:+ Rag.question input)) w)
  = (inr docs, w1) ->
  limit < String.length (Spec.contextOf docs) ->
  exists w2,
    Rag.assemble r PROMPT input w
    = (inr (Spec.promptOf (Spec.contextOf docs) (Rag.question input)), w2)
    /\ String.length (Spec.contextOf docs) = Spec.untruncatedLength docs
    /\ limit < String.length (Spec.promptOf (Spec.contextOf docs) (Rag.question input)).
Proof.
  intros Hdocs Hlimit. eexists.
  split; [exact (assemble_retrieved r input docs w w1 Hdocs)|].
  split; [apply contextOf_length|].
  unfold Spec.promptOf. rewrite !length_append. lia.
Qed.

(** C9. On an empty collection, for a question the embedding service
    embeds, the retriever returns no document, the [context] slot is the
    empty string and the prompt is assembled around it; nothing is
    thrown. *)
Theorem empty_collection_gives_empty_context (r : VectorStore.Retriever)
  (input : Rag.Input) (v : Vector) (w : World Vector) :
  Chroma.entries (chroma w) (VectorStore.collectionName (VectorStore.store r)) = ∅ ->
  embedQuery (Rag.question input) = inr v ->
  VectorStore.invoke r (Rag.question input) w
  = (inr [], VectorStore.opened (VectorStore.store r) w)
  /\ exists values w2,
       Rag.slots r input w = (inr values, w2)
       /\ values !! "context" = Some ""
       /\ values !! "question" = Some (Rag.question input)
       /\ Rag.assemble r PROMPT input w
          = (inr (Spec.promptOf "" (Rag.question input)), w2).
Proof.
  intros Hempty Hembed. split.
  - rewrite (invoke_results r _ v w Hembed), Hempty, query_empty. reflexivity.
  - pose proof (invoke_results r _ v
                  (Run.logged (ConsoleLog ("Retrieving documents for question: "
                                           +:+ Rag.question input)) w) Hembed) as Hrun.
    change (chroma (Run.logged _ w)) with (chroma w) in Hrun.
    rewrite Hempty, query_empty in Hrun. simpl map in Hrun.
    eexists _, _. split; [exact (slots_retrieved r input [] w _ Hrun)|].
    split; [apply lookup_insert_eq|].
    split; [rewrite lookup_insert_ne by discriminate; apply lookup_insert_eq|].
    exact (assemble_retrieved r input [] w _ Hrun).
Qed.

End PromptFacts.

(** ** The chain on the ingested book *)

Section BookExamples.

#[local] Existing Instance Demo.online.
#[local] Existing Instance Demo.metric.
#[local] Existing Instance Demo.model.

Lemma book_retrieved :
  VectorStore.invoke Demo.retriever (Rag.question Demo.question) Demo.asked
  = (inr [Demo.chunk2; Demo.chunk1], VectorStore.opened CHROMA_CONFIG Demo.asked).
Proof. vm_compute. reflexivity. Qed.

Lemma prompt_slots_hold_context_and_question_witness :
  exists values w2,
    Rag.slots Demo.retriever Demo.question Demo.ingested = (inr values, w2)
    /\ values !! "context" = Some (Spec.contextOf [Demo.chunk2; Demo.chunk1])
    /\ values !! "question" = Some "Who is the main character ?"
    /\ Prompt.fromTemplate TEMPLATE = inr PROMPT
    /\ Rag.assemble Demo.retriever PROMPT Demo.question Demo.ingested
       = (inr (Spec.promptOf (Spec.contextOf [Demo.chunk2; Demo.chunk1])
                 "Who is the main character ?"), w2).
Proof.
  apply (prompt_slots_hold_context_and_question Demo.retriever Demo.question
           [Demo.chunk2; Demo.chunk1] Demo.ingested
           (VectorStore.opened CHROMA_CONFIG Demo.asked)).
  vm_compute. reflexivity.
Defined.

Lemma oversized_context_assembled_whole_witness :
  exists w2,
    Rag.assemble Demo.retriever PROMPT Demo.question Demo.ingested
    = (inr (Spec.promptOf (Spec.contextOf [Demo.chunk2; Demo.chunk1])
              "Who is the main character ?"), w2)
    /\ String.length (Spec.contextOf [Demo.chunk2; Demo.chunk1])
       = Spec.untruncatedLength [Demo.chunk2; Demo.chunk1]
    /\ 20 < String.length (Spec.promptOf (Spec.contextOf [Demo.chunk2; Demo.chunk1])
                             "Who is the main character ?").
Proof.
  apply (oversized_context_assembled_whole 20 Demo.retriever Demo.question
           [Demo.chunk2; Demo.chunk1] Demo.ingested
           (VectorStore.opened CHROMA_CONFIG Demo.asked)).
  - vm_compute. reflexivity.
  - vm_compute. lia.
Defined.

(** C6, as the specification states it, fails: for a model that takes 20
    characters the retrieved context of the question is 87 characters
    long, and the assembler returns the prompt with the whole of it; it
    throws nothing, so no [ContextTooLargeError]. *)
Lemma oversized_context_not_rejected :
  let limit := 20 in
  let context := Spec.contextOf [Demo.chunk2; Demo.chunk1] in
  let run := Rag.assemble Demo.retriever PROMPT Demo.question Demo.ingested in
  limit < String.length context
  /\ String.length context = 87
  /\ run.1 = inr (Spec.promptOf context "Who is the main character ?")
  /\ (forall e, Js.name e = "ContextTooLargeError" -> run.1 <> inl e).
Proof.
  vm_compute. split; [lia|]. split; [reflexivity|]. split; [reflexivity|].
  intros e _. discriminate.
Qed.

Lemma empty_collection_gives_empty_context_witness :
  VectorStore.invoke Demo.retriever "Who is the main character ?" Demo.fresh
  = (inr [], VectorStore.opened CHROMA_CONFIG Demo.fresh)
  /\ exists values w2,
       Rag.slots Demo.retriever Demo.question Demo.fresh = (inr values, w2)
       /\ values !! "context" = Some ""
       /\ values !! "question" = Some "Who is the main character ?"
       /\ Rag.assemble Demo.retriever PROMPT Demo.question Demo.fresh
          = (inr (Spec.promptOf "" "Who is the main character ?"), w2).
Proof.
  apply (empty_collection_gives_empty_context Demo.retriever Demo.question 27%Z Demo.fresh).
  - reflexivity.
  - reflexivity.
Defined.

End BookExamples.

(** ** The program on concrete inputs *)

Section Examples.

Example endsWith_md :
  Js.endsWith "ch1.md" ".md" = true /\ Js.endsWith "notes.txt" ".md" = false
  /\ Js.endsWith "md" ".md" = false.
Proof. repeat split. Qed.

Example join_three : Js.join ", " ["a"; "b"; "c"] = "a, b, c".
Proof. reflexivity. Qed.

Example path_join_book : Path.join [MARKDOWN_DIR; "ch1.md"] = "book/ch1.md".
Proof. reflexivity. Qed.

Example path_normalize :
  Path.normalize "/foo/bar//baz/asdf/quux/.." = "/foo/bar/baz/asdf"
  /\ Path.normalize "./" = "./"
  /\ Path.normalize "a/../.." = ".."
  /\ Path.normalize "" = ".".
Proof. repeat split. Qed.

Example path_basename :
  Path.basename "book/ch1.md" = "ch1.md" /\ Path.basename "/foo/bar/" = "bar".
Proof. split; reflexivity. Qed.

Example chunk_overlap_below_size : CHUNK_OVERLAP < CHUNK_SIZE.
Proof. unfold CHUNK_OVERLAP, CHUNK_SIZE. lia. Qed.

(** The console after the ingestion of the book. *)
Example ingestion_console :
  console Demo.ingested
  = [ ConsoleLog "Processing markdown files...";
      ConsoleLog "Split 2 documents into 2 chunks";
      ConsoleLog "Creating vector store...";
      ConsoleLog "Vector store created successfully!";
      ConsoleLog "Creating RAG pipeline...";
      ConsoleLog "RAG system is ready to use!" ].
Proof. vm_compute. reflexivity. Qed.

(** The answers of [main] with a model that always answers [Alice]. *)
Example query_console :
  let run := @App.main _ Demo.online Demo.metric Demo.model Demo.ingested in
  run.1 = inr tt
  /\ drop 6 (console run.2)
     = [ ConsoleLog "Creating RAG pipeline...";
         ConsoleLog "RAG system is ready to use!";
         ConsoleLog "Question: Who is the main character ?";
         ConsoleLog "Retrieving documents for question: Who is the main character ?";
         ConsoleLog "Retrieved 2 documents";
         ConsoleLog "Answer: Alice";
         ConsoleLog "Question: Who is the anti-protagonist ?";
         ConsoleLog "Retrieving documents for question: Who is the anti-protagonist ?";
         ConsoleLog "Retrieved 2 documents";
         ConsoleLog "Answer: Alice";
         ConsoleLog "Question: Which places did Alice visit?";
         ConsoleLog "Retrieving documents for question: Which places did Alice visit?";
         ConsoleLog "Retrieved 2 documents";
         ConsoleLog "Answer: Alice";
         ConsoleLog "Question: What is the cat name ?";
         ConsoleLog "Retrieving documents for question: What is the cat name ?";
         ConsoleLog "Retrieved 2 documents";
         ConsoleLog "Answer: Alice" ].
Proof. vm_compute. split; reflexivity. Qed.

(** An entry of the book directory named like a markdown file but which
    is a directory makes the whole load fail. *)
Example load_fails_on_directory_entry :
  let tree := Fs.Dir [("book", Fs.Dir [("ch1.md", Fs.File "Alice");
                                        ("drafts.md", Fs.Dir [])])] in
  @Install.loadDocuments Demo.Vector (mkWorld [] tree ∅ 0)
  = (inl (Js.mkError "Error" "EISDIR: illegal operation on a directory, read"),
     mkWorld [] tree ∅ 0).
Proof. vm_compute. reflexivity. Qed.

(** Without a book directory the listing fails and nothing is loaded. *)
Example load_fails_without_directory :
  (@Install.loadDocuments Demo.Vector (mkWorld [] (Fs.Dir []) ∅ 0)).1
  = inl (Fs.errno "ENOENT" "no such file or directory" "scandir" "./book").
Proof. vm_compute. reflexivity. Qed.

(** A path that runs through a regular file is not a directory. *)
Example read_through_a_file :
  Fs.readFileSync Demo.tree "book/ch1.md/x"
  = inl (Js.mkError "Error" "ENOTDIR: not a directory, open 'book/ch1.md/x'")
  /\ Fs.readFileSync Demo.tree "book/ch3.md"
     = inl (Js.mkError "Error" "ENOENT: no such file or directory, open 'book/ch3.md'")
  /\ Fs.readdirSync Demo.tree "package.json"
     = inl (Js.mkError "Error" "ENOTDIR: not a directory, scandir 'package.json'").
Proof. repeat split. Qed.

End Examples.

(** * Further properties of the code *)

(** ** The loader on directories of all kinds *)

Section LoaderEdgeFacts.
Context {Vector : Type}.

Lemma wellFormedDir_valid entries (name : string) (node : Fs.Node) :
  Fs.wellFormedDir entries -> In (name, node) entries -> Fs.validName name = true.
Proof.
  intros [_ Hvalid] Hin. rewrite Forall_forall in Hvalid.
  apply (Hvalid (name, node)). now apply list_elem_of_In.
Qed.

(** Reading the full path of an entry that is a directory fails, with
    an error that names no path. *)
Lemma readFileSync_directory (tree : Fs.Node) entries (name : string)
  (sub : list (string * Fs.Node)) :
  Fs.resolve tree MARKDOWN_DIR = Some (Fs.Dir entries) ->
  Fs.wellFormedDir entries ->
  In (name, Fs.Dir sub) entries ->
  Fs.readFileSync tree (Path.join [MARKDOWN_DIR; name])
  = inl (Fs.errnoOpened "EISDIR" "illegal operation on a directory" "read").
Proof.
  intros Hdir Hwf Hin.
  pose proof (wellFormedDir_valid _ _ _ Hwf Hin) as Hv.
  destruct Hwf as [Hnd _].
  rewrite (join_MARKDOWN_DIR _ Hv). unfold Fs.readFileSync.
  now rewrite (resolve_entry _ _ _ Hdir Hv), (assoc_In _ _ _ Hnd Hin).
Qed.

(** The loop stops at the first path that is a directory. *)
Lemma loadFiles_directory (w : World Vector) entries (listed : list (string * Fs.Node))
  (documents : list Document) :
  Fs.resolve (cwd w) MARKDOWN_DIR = Some (Fs.Dir entries) ->
  Fs.wellFormedDir entries ->
  (forall name node, In (name, node) listed -> In (name, node) entries) ->
  (exists name sub, In (name, Fs.Dir sub) listed) ->
  Install.loadFiles
    (map (fun file => Path.join [MARKDOWN_DIR; file]) (map fst listed)) documents w
  = (inl (Fs.errnoOpened "EISDIR" "illegal operation on a directory" "read"), w).
Proof.
  intros Hdir Hwf. revert documents.
  induction listed as [|[n node] listed IH]; intros documents Hsub (name & sub & Hin).
  - destruct Hin.
  - assert (Hentry : In (n, node) entries) by (apply Hsub; now left).
    destruct node as [content|sub0].
    + destruct Hin as [Heq|Hin]; [discriminate|].
      simpl. erewrite bind_inr; cycle 1.
      { unfold Run.readFileSync.
        now rewrite (readFileSync_entry _ _ _ _ Hdir Hwf Hentry). }
      apply IH; [|eauto]. intros ? ? ?. apply Hsub. now right.
    + simpl. erewrite bind_inl; [reflexivity|].
      unfold Run.readFileSync.
      now rewrite (readFileSync_directory _ _ _ _ Hdir Hwf Hentry).
Qed.

Lemma filter_md_listed (entries : list (string * Fs.Node)) :
  exists listed,
    map fst listed = List.filter (fun file => Js.endsWith file ".md") (map fst entries)
    /\ (forall name node, In (name, node) listed <->
                          In (name, node) entries /\ Js.endsWith name ".md" = true).
Proof.
  exists (List.filter (fun entry => Js.endsWith entry.1 ".md") entries). split.
  - induction entries as [|[n node] entries IH]; [reflexivity|].
    simpl. destruct (Js.endsWith n ".md"); simpl; now rewrite IH.
  - intros name node. now rewrite filter_In.
Qed.

Lemma loadDocuments_directory (w : World Vector) entries
  (name : string) (sub : list (string * Fs.Node)) :
  Fs.resolve (cwd w) MARKDOWN_DIR = Some (Fs.Dir entries) ->
  Fs.wellFormedDir entries ->
  In (name, Fs.Dir sub) entries ->
  Js.endsWith name ".md" = true ->
  Install.loadDocuments w
  = (inl (Fs.errnoOpened "EISDIR" "illegal operation on a directory" "read"), w).
Proof.
  intros Hdir Hwf Hin Hmd.
  destruct (filter_md_listed entries) as (listed & Hnames & Hlisted).
  unfold Install.loadDocuments.
  erewrite bind_inr; cycle 1.
  { unfold Run.readdirSync, Fs.readdirSync. now rewrite Hdir. }
  rewrite <- Hnames.
  apply (loadFiles_directory w entries listed [] Hdir Hwf).
  - intros n node Hn. now apply Hlisted in Hn.
  - exists name, sub. now apply Hlisted.
Qed.


Lemma markdown_entries_files_or_directory (entries : list (string * Fs.Node)) :
  (forall name node, In (name, node) entries -> Js.endsWith name ".md" = true ->
                     exists content, node = Fs.File content)
  \/ (exists name sub, In (name, Fs.Dir sub) entries /\ Js.endsWith name ".md" = true).
Proof.
  induction entries as [|[n node] entries [IH|(name & sub & Hin & Hmd)]].
  - left. intros ? ? [].
  - destruct node as [content|sub].
    + left. intros name node [[= <- <-]|Hin] Hmd; eauto.
    + destruct (Js.endsWith n ".md") eqn:E.
      * right. exists n, sub. split; [now left | exact E].
      * left. intros name node [[= <- <-]|Hin] Hmd; [congruence | eauto].
  - right. exists name, sub. split; [now right | exact Hmd].
Qed.

(** A directory none of whose names ends with [.md] is no error: the
    loader returns no document. *)
Theorem load_of_directory_without_markdown (w : World Vector) entries :
  Fs.resolve (cwd w) MARKDOWN_DIR = Some (Fs.Dir entries) ->
  (forall name node, In (name, node) entries -> Js.endsWith name ".md" = false) ->
  Install.loadDocuments w = (inr [], w).
Proof.
  intros Hdir Hnone. unfold Install.loadDocuments.
  erewrite bind_inr; cycle 1.
  { unfold Run.readdirSync, Fs.readdirSync. now rewrite Hdir. }
  assert (Hfilter : List.filter (fun file => Js.endsWith file ".md") (map fst entries) = []).
  { clear Hdir. induction entries as [|[n node] entries IH]; [reflexivity|].
    simpl. rewrite (Hnone n node) by now left.
    apply IH. intros ? ? ?. eapply Hnone. right. eassumption. }
  now rewrite Hfilter.
Qed.

(** The documents come in the order of the directory listing, one per
    name the filter keeps and no other. *)
Theorem loader_keeps_listing_order (w : World Vector) entries :
  Fs.resolve (cwd w) MARKDOWN_DIR = Some (Fs.Dir entries) ->
  Fs.wellFormedDir entries ->
  (forall name node, In (name, node) entries -> Js.endsWith name ".md" = true ->
                     exists content, node = Fs.File content) ->
  exists docs,
    Install.loadDocuments w = (inr docs, w)
    /\ map (fun d => metadata d !! "source") docs
       = map Some (List.filter (fun file => Js.endsWith file ".md") (map fst entries))
    /\ length docs
       = length (List.filter (fun file => Js.endsWith file ".md") (map fst entries)).
Proof.
  intros Hdir Hwf Hfiles.
  exists (map (fun f => Install.documentOf f.1 f.2) (Install.markdownFiles entries)).
  split; [now apply loadDocuments_markdownFiles|].
  rewrite <- (markdownFiles_names _ Hfiles).
  split; [|now rewrite !length_map].
  rewrite !map_map. apply map_ext. intros [n c]. simpl. apply lookup_insert_eq.
Qed.

(** No two documents of a successful load share a source or a path. *)
Theorem loader_documents_are_distinct (w : World Vector) entries (docs : list Document) :
  Fs.resolve (cwd w) MARKDOWN_DIR = Some (Fs.Dir entries) ->
  Fs.wellFormedDir entries ->
  Install.loadDocuments w = (inr docs, w) ->
  NoDup (map (fun d => metadata d !! "source") docs)
  /\ NoDup (map (fun d => metadata d !! "filePath") docs).
Proof.
  intros Hdir Hwf Hrun.
  destruct (markdown_entries_files_or_directory entries)
    as [Hfiles|(name & sub & Hin & Hmd)]; cycle 1.
  { rewrite (loadDocuments_directory w entries name sub Hdir Hwf Hin Hmd) in Hrun.
    discriminate. }
  rewrite (loadDocuments_markdownFiles w entries Hdir Hwf Hfiles) in Hrun.
  injection Hrun as <-.
  pose proof (markdownFiles_NoDup entries (proj1 Hwf)) as Hnd.
  assert (Hvalid : forall f, In f (Install.markdownFiles entries) ->
                             Fs.validName f.1 = true).
  { intros [n c] Hin. apply markdownFiles_In in Hin as [Hin _].
    exact (wellFormedDir_valid _ _ _ Hwf Hin). }
  rewrite !map_map.
  revert Hnd Hvalid. generalize (Install.markdownFiles entries) as files.
  induction files as [|[n c] files IH]; intros Hnd Hvalid; simpl.
  - split; constructor.
  - simpl in Hnd. apply NoDup_cons in Hnd as [Hn Hnd].
    destruct (IH Hnd) as [IHs IHp]; [intros f Hf; apply Hvalid; now right|].
    split; apply NoDup_cons; (split; [|assumption]).
    + rewrite lookup_insert_eq.
      intros ([n' c'] & Heq & Hin)%list_elem_of_In%in_map_iff.
      simpl in Heq. rewrite lookup_insert_eq in Heq. injection Heq as ->.
      apply Hn, list_elem_of_In. change n with (fst (n, c')). now apply in_map.
    + rewrite lookup_insert_ne by discriminate. rewrite lookup_insert_eq.
      intros ([n' c'] & Heq & Hin)%list_elem_of_In%in_map_iff.
      simpl in Heq. rewrite lookup_insert_ne in Heq by discriminate.
      rewrite lookup_insert_eq in Heq. injection Heq as Heq.
      rewrite (join_MARKDOWN_DIR n (Hvalid (n, c) (or_introl eq_refl))) in Heq.
      rewrite (join_MARKDOWN_DIR n' (Hvalid (n', c') (or_intror Hin))) in Heq.
      apply (inj (String.app "book/")) in Heq. subst n'.
      apply Hn, list_elem_of_In. change n with (fst (n, c')). now apply in_map.
Qed.

End LoaderEdgeFacts.

Lemma demo_book_resolved :
  Fs.resolve (cwd Demo.fresh) MARKDOWN_DIR = Some (Fs.Dir DemoMore.bookEntries).
Proof. reflexivity. Qed.

Lemma demo_book_wellFormed : Fs.wellFormedDir DemoMore.bookEntries.
Proof.
  split; [apply (bool_decide_unpack _); vm_compute; exact I | repeat constructor].
Qed.


Lemma demo_book_files (name : string) (node : Fs.Node) :
  In (name, node) DemoMore.bookEntries -> Js.endsWith name ".md" = true ->
  exists content, node = Fs.File content.
Proof.
  simpl. intros [H|[H|[H|[]]]] Hmd; injection H as <- <-;
    first [discriminate Hmd | eexists; reflexivity].
Qed.


Lemma load_of_directory_without_markdown_witness :
  Install.loadDocuments DemoMore.onlyNotes = (inr [], DemoMore.onlyNotes).
Proof.
  apply (load_of_directory_without_markdown DemoMore.onlyNotes DemoMore.notesEntries).
  - reflexivity.
  - simpl. intros name node [H|[H|[]]]; injection H as <- <-; reflexivity.
Defined.

Lemma loader_keeps_listing_order_witness :
  exists docs,
    Install.loadDocuments Demo.fresh = (inr docs, Demo.fresh)
    /\ map (fun d => metadata d !! "source") docs = [Some "ch1.md"; Some "ch2.md"]
    /\ length docs = 2.
Proof.
  apply (loader_keeps_listing_order Demo.fresh DemoMore.bookEntries).
  - exact demo_book_resolved.
  - exact demo_book_wellFormed.
  - exact demo_book_files.
Defined.

Lemma loader_documents_are_distinct_witness :
  NoDup (map (fun d => metadata d !! "source") [Demo.chunk1; Demo.chunk2])
  /\ NoDup (map (fun d => metadata d !! "filePath") [Demo.chunk1; Demo.chunk2]).
Proof.
  apply (loader_documents_are_distinct Demo.fresh DemoMore.bookEntries).
  - exact demo_book_resolved.
  - exact demo_book_wellFormed.
  - vm_compute. reflexivity.
Defined.

(** ** What the two programs keep *)

Create HintDb keeps.

Section KeepsFacts.
Context {Vector : Type} `{!Embeddings Vector} `{!Metric Vector} `{!LanguageModel}
        `{!TextSplitter}.

Variable R : relation (World Vector).
Hypothesis R_preorder : PreOrder R.
Hypothesis R_logged : forall line w, R w (Run.logged line w).
Hypothesis R_opened : forall h w, R w (VectorStore.opened h w).
Hypothesis R_written :
  forall vectors docs w,
    length vectors = length docs -> R w (VectorStore.written CHROMA_CONFIG vectors docs w).

Lemma keeps_ret {A} (a : A) : Frame.keeps R (Run.ret a).
Proof. intros w. reflexivity. Qed.

Lemma keeps_throw {A} (e : Js.Error) : Frame.keeps R (Run.throw (A := A) e).
Proof. intros w. reflexivity. Qed.

Lemma keeps_lift {A} (r : Js.Error + A) : Frame.keeps R (Run.lift r).
Proof. intros w. reflexivity. Qed.

Lemma keeps_console_log (text : string) : Frame.keeps R (Run.console_log text).
Proof. intros w. apply R_logged. Qed.

Lemma keeps_console_error (text : string) (e : Js.Error) :
  Frame.keeps R (Run.console_error text e).
Proof. intros w. apply R_logged. Qed.

Lemma keeps_bind {A B} (m : Run.M (Vector := Vector) A) (k : A -> Run.M B) :
  Frame.keeps R m -> (forall a, Frame.keeps R (k a)) -> Frame.keeps R (Run.bind m k).
Proof.
  intros Hm Hk w. unfold Run.bind.
  pose proof (Hm w) as Hw. destruct (m w) as [[e|a] w']; [exact Hw|].
  etransitivity; [exact Hw | apply Hk].
Qed.

Lemma keeps_tryCatch {A} (m : Run.M (Vector := Vector) A) (handler : Js.Error -> Run.M A) :
  Frame.keeps R m -> (forall e, Frame.keeps R (handler e)) ->
  Frame.keeps R (Run.tryCatch m handler).
Proof.
  intros Hm Hh w. unfold Run.tryCatch.
  pose proof (Hm w) as Hw. destruct (m w) as [[e|a] w']; [|exact Hw].
  etransitivity; [exact Hw | apply Hh].
Qed.

Lemma keeps_ensureCollection (h : VectorStore.Handle) :
  Frame.keeps R (VectorStore.ensureCollection h).
Proof. intros w. apply R_opened. Qed.

Lemma keeps_collectionQuery (h : VectorStore.Handle) (v : Vector) (k : nat) :
  Frame.keeps R (VectorStore.collectionQuery h v k).
Proof. intros w. reflexivity. Qed.

Lemma keeps_loadDocuments : Frame.keeps R Install.loadDocuments.
Proof. intros w. rewrite loadDocuments_world. reflexivity. Qed.

(** A write of the adapter either leaves the world or is the write of
    one vector per document. *)
Lemma addDocuments_world (docs : list Document) (w : World Vector) :
  (VectorStore.addDocuments CHROMA_CONFIG docs w).2 = w
  \/ exists vectors,
       length vectors = length docs
       /\ (VectorStore.addDocuments CHROMA_CONFIG docs w).2
          = VectorStore.written CHROMA_CONFIG vectors docs w.
Proof.
  unfold VectorStore.addDocuments, Run.bind, Run.lift.
  destruct (embedDocuments (map pageContent docs)) as [e|vectors]; [now left|].
  destruct (Nat.eq_dec (length vectors) (length docs)) as [Hlen|Hne].
  - right. exists vectors. split; [exact Hlen|].
    now rewrite (addVectors_written CHROMA_CONFIG vectors docs w Hlen).
  - left. unfold VectorStore.addVectors.
    destruct vectors as [|v vectors]; [reflexivity|].
    apply Nat.eqb_neq in Hne. now rewrite Hne.
Qed.

Lemma keeps_addDocuments (docs : list Document) :
  Frame.keeps R (VectorStore.addDocuments CHROMA_CONFIG docs).
Proof.
  intros w. destruct (addDocuments_world docs w) as [->|(vectors & Hlen & ->)].
  - reflexivity.
  - now apply R_written.
Qed.

#[local] Hint Resolve keeps_ret keeps_throw keeps_lift keeps_console_log
  keeps_console_error keeps_bind keeps_tryCatch keeps_ensureCollection
  keeps_collectionQuery keeps_loadDocuments keeps_addDocuments : keeps.

Lemma keeps_processMarkdownFiles : Frame.keeps R Install.processMarkdownFiles.
Proof. unfold Install.processMarkdownFiles. auto 10 with keeps. Qed.

Lemma keeps_createVectorStore (documents : list Document) :
  Frame.keeps R (Install.createVectorStore documents).
Proof.
  unfold Install.createVectorStore, VectorStore.fromDocuments. auto 10 with keeps.
Qed.

Lemma keeps_createRagPipeline (vectorStore : VectorStore.Handle) :
  Frame.keeps R (Rag.createRagPipeline (Vector := Vector) vectorStore).
Proof. unfold Rag.createRagPipeline. auto 10 with keeps. Qed.

#[local] Hint Resolve keeps_processMarkdownFiles keeps_createVectorStore
  keeps_createRagPipeline : keeps.

Lemma keeps_install_setupRag : Frame.keeps R Install.setupRag.
Proof. unfold Install.setupRag. auto 15 with keeps. Qed.

Lemma keeps_install : Frame.keeps R TopLevel.install.
Proof.
  pose proof keeps_install_setupRag.
  unfold TopLevel.install, Install.main. auto 10 with keeps.
Qed.

Lemma keeps_invoke (r : VectorStore.Retriever) (text : string) :
  Frame.keeps R (VectorStore.invoke r text).
Proof.
  unfold VectorStore.invoke, VectorStore.similaritySearch,
    VectorStore.similaritySearchVectorWithScore.
  auto 10 with keeps.
Qed.

#[local] Hint Resolve keeps_invoke : keeps.

Lemma keeps_ragChain (r : VectorStore.Retriever) (nodes : list Prompt.Node)
  (input : Rag.Input) :
  Frame.keeps R (Rag.ragChain r nodes input).
Proof.
  unfold Rag.ragChain, Rag.assemble, Rag.slots, Rag.context, Rag.StringOutputParser.
  auto 15 with keeps.
Qed.

Lemma keeps_queryAll (chain : Rag.RagChain Vector) (questions : list string) :
  (forall input, Frame.keeps R (chain input)) ->
  Frame.keeps R (App.queryAll chain questions).
Proof.
  intros Hchain. induction questions as [|q questions IH]; simpl.
  - apply keeps_ret.
  - unfold App.queryRag. auto 10 with keeps.
Qed.

Lemma keeps_app_mainWith (questions : list string) :
  Frame.keeps R (App.mainWith questions).
Proof.
  intros w. unfold App.mainWith, Run.bind.
  assert (Hsetup : Frame.keeps R (App.setupRag (Vector := Vector))).
  { unfold App.setupRag, Rag.getDataVectorStor, VectorStore.fromExistingCollection.
    auto 15 with keeps. }
  pose proof (Hsetup w) as Hw.
  destruct (App.setupRag w) as [[e|chain] w'] eqn:E; [exact Hw|].
  etransitivity; [exact Hw|].
  apply keeps_queryAll. intros input.
  pose proof (returns_setupRag w chain w' E) as Hchain.
  unfold App.setupRag, Run.tryCatch, Run.bind in E.
  unfold Rag.getDataVectorStor, VectorStore.fromExistingCollection, Run.bind in E.
  simpl in E. injection E as <- _. apply keeps_ragChain.
Qed.

Lemma keeps_app : Frame.keeps R TopLevel.app.
Proof.
  pose proof (keeps_app_mainWith App.QUESTIONS).
  unfold TopLevel.app, App.main. auto 10 with keeps.
Qed.

End KeepsFacts.

Section FrameFacts.
Context {Vector : Type} `{!Embeddings Vector} `{!Metric Vector} `{!LanguageModel}
        `{!TextSplitter}.

#[local] Instance elsewhere_preorder (name : string) :
  PreOrder (Frame.elsewhere (Vector := Vector) name).
Proof.
  split.
  - intros w. now split.
  - intros w1 w2 w3 [He Hf] [He' Hf']. split; [|congruence].
    intros other Hne. now rewrite He, He'.
Qed.

Lemma written_cwd (h : VectorStore.Handle) (vectors : list Vector)
  (docs : list Document) (w : World Vector) :
  cwd (VectorStore.written h vectors docs w) = cwd w
  /\ console (VectorStore.written h vectors docs w) = console w.
Proof. unfold VectorStore.written. now destruct vectors. Qed.

(** The ingestion program writes to the collection of the configuration
    and to nothing else: whatever happens, the entries of every other
    collection and the files are as before. *)
Theorem ingestion_touches_one_collection (w : World Vector) (other : string) :
  other <> COLLECTION_NAME ->
  Chroma.entries (chroma (Install.setupRag w).2) other = Chroma.entries (chroma w) other
  /\ Chroma.entries (chroma (TopLevel.install w).2) other = Chroma.entries (chroma w) other
  /\ cwd (Install.setupRag w).2 = cwd w
  /\ cwd (TopLevel.install w).2 = cwd w.
Proof.
  intros Hne.
  assert (Hlogged : forall line (w : World Vector),
             Frame.elsewhere COLLECTION_NAME w (Run.logged line w)) by now split.
  assert (Hopened : forall h (w : World Vector),
             Frame.elsewhere COLLECTION_NAME w (VectorStore.opened h w)).
  { intros h w0. split; [|reflexivity]. intros o _. simpl.
    now rewrite entries_ensureCollection. }
  assert (Hwritten : forall vectors docs (w : World Vector),
             length vectors = length docs ->
             Frame.elsewhere COLLECTION_NAME w
               (VectorStore.written CHROMA_CONFIG vectors docs w)).
  { intros vectors docs w0 _. split.
    - intros o Ho. symmetry. apply written_other. simpl. congruence.
    - symmetry. apply written_cwd. }
  assert (K1 : Frame.keeps (Frame.elsewhere COLLECTION_NAME) Install.setupRag)
    by (apply keeps_install_setupRag; auto; apply _).
  assert (K2 : Frame.keeps (Frame.elsewhere COLLECTION_NAME) TopLevel.install)
    by (apply keeps_install; auto; apply _).
  destruct (K1 w) as [He Hf]. destruct (K2 w) as [He' Hf'].
  repeat split; auto; symmetry; auto.
Qed.

(** Neither program removes or changes a line of the console. *)
Theorem console_only_grows (w : World Vector) (questions : list string) :
  console w `prefix_of` console (TopLevel.install w).2
  /\ console w `prefix_of` console (TopLevel.app w).2
  /\ console w `prefix_of` console (App.mainWith questions w).2.
Proof.
  assert (Hlogged : forall line (w : World Vector),
             Frame.consoleGrows w (Run.logged line w)).
  { intros line w0. now apply prefix_app_r. }
  assert (Hopened : forall h (w : World Vector),
             Frame.consoleGrows w (VectorStore.opened h w))
    by (intros; unfold Frame.consoleGrows; reflexivity).
  assert (Hwritten : forall vectors docs (w : World Vector),
             length vectors = length docs ->
             Frame.consoleGrows w (VectorStore.written CHROMA_CONFIG vectors docs w)).
  { intros vectors docs w0 _. unfold Frame.consoleGrows.
    now rewrite (proj2 (written_cwd CHROMA_CONFIG vectors docs w0)). }
  assert (Hpre : PreOrder (Frame.consoleGrows (Vector := Vector))).
  { unfold Frame.consoleGrows.
    split; [intros ?; reflexivity | intros ? ? ? ? ?; etransitivity; eassumption]. }
  split; [|split].
  - apply (keeps_install Frame.consoleGrows); auto.
  - apply (keeps_app Frame.consoleGrows); auto.
  - apply (keeps_app_mainWith Frame.consoleGrows); auto.
Qed.

Lemma issued_opened (h : VectorStore.Handle) (w : World Vector) :
  issued w -> issued (VectorStore.opened h w).
Proof.
  intros Hissued name c id Hc Hid. simpl in *.
  unfold Chroma.ensureCollection in Hc.
  destruct (chroma w !! VectorStore.collectionName h) eqn:E.
  - eapply Hissued; eassumption.
  - destruct (decide (VectorStore.collectionName h = name)) as [<-|Hne].
    + rewrite lookup_insert_eq in Hc. injection Hc as <-.
      rewrite lookup_empty in Hid. now destruct Hid.
    + rewrite lookup_insert_ne in Hc by exact Hne. eapply Hissued; eassumption.
Qed.

(** The ingestion program never overwrites or removes an entry: with the
    identifiers of the store issued by the adapter, every entry of the
    collection is still there after a run, under the same identifier,
    whether the run succeeds or fails. *)
Theorem ingestion_keeps_existing_entries (w : World Vector) (id : nat)
  (e : Chroma.Entry Vector) :
  issued w ->
  Chroma.entries (chroma w) COLLECTION_NAME !! id = Some e ->
  Chroma.entries (chroma (Install.setupRag w).2) COLLECTION_NAME !! id = Some e
  /\ Chroma.entries (chroma (TopLevel.install w).2) COLLECTION_NAME !! id = Some e.
Proof.
  set (R := fun w w' : World Vector =>
              issued w -> issued w' /\ Frame.entriesKept COLLECTION_NAME w w').
  assert (Hpre : PreOrder R).
  { split.
    - intros w0 Hi0. split; [exact Hi0 | now intros ? ?].
    - intros w1 w2 w3 H12 H23 H1. destruct (H12 H1) as [H2 K12].
      destruct (H23 H2) as [H3 K23]. split; [exact H3|].
      intros i x Hx. now apply K23, K12. }
  assert (Hlogged : forall line (w : World Vector), R w (Run.logged line w)).
  { intros line w0 Hi0. split; [exact Hi0 | now intros ? ?]. }
  assert (Hopened : forall h (w : World Vector), R w (VectorStore.opened h w)).
  { intros h w0 Hi0. split; [now apply issued_opened|].
    intros i x Hx. simpl. now rewrite entries_ensureCollection. }
  assert (Hwritten : forall vectors docs (w : World Vector),
             length vectors = length docs ->
             R w (VectorStore.written CHROMA_CONFIG vectors docs w)).
  { intros vectors docs w0 Hlen Hi0. split; [now apply written_issued|].
    intros i x Hx. unfold VectorStore.written.
    destruct vectors as [|v vs] eqn:Ev; [exact Hx|]. rewrite <- Ev in *. clear Ev.
    simpl chroma.
    change COLLECTION_NAME with (VectorStore.collectionName CHROMA_CONFIG).
    rewrite entries_upsertInto, entries_ensureCollection.
    rewrite upsert_lookup_other; [exact Hx|].
    rewrite itemsOf_ids by exact Hlen. intros Hin%in_seq.
    rewrite (issued_fresh w0 _ i Hi0) in Hx by lia. discriminate. }
  assert (K1 : Frame.keeps R Install.setupRag)
    by (apply keeps_install_setupRag; auto).
  assert (K2 : Frame.keeps R TopLevel.install) by (apply keeps_install; auto).
  intros Hissued Hid. split.
  - now apply (K1 w Hissued).
  - now apply (K2 w Hissued).
Qed.

End FrameFacts.

Lemma ingestion_touches_one_collection_witness :
  Chroma.entries
    (chroma (@Install.setupRag _ Demo.online Demo.metric Demo.model Demo.splitter
               Demo.fresh).2) "other_book"
  = Chroma.entries (chroma Demo.fresh) "other_book".
Proof.
  apply (@ingestion_touches_one_collection _ Demo.online Demo.metric Demo.model
           Demo.splitter Demo.fresh "other_book").
  discriminate.
Defined.

Lemma issued_writtenOnce : issued Demo.writtenOnce.
Proof.
  apply (@written_issued _ CHROMA_CONFIG [38%Z; 17%Z] [Demo.chunk1; Demo.chunk2]
           (Run.logged (ConsoleLog "Creating vector store...") Demo.fresh)).
  - exact issued_fresh_world.
  - reflexivity.
Qed.

Lemma ingestion_keeps_existing_entries_witness :
  Chroma.entries
    (chroma (@Install.setupRag _ Demo.online Demo.metric Demo.model Demo.splitter
               Demo.writtenOnce).2) COLLECTION_NAME !! 0
  = Some (Chroma.toEntry 38%Z Demo.chunk1).
Proof.
  apply (@ingestion_keeps_existing_entries _ Demo.online Demo.metric Demo.model
           Demo.splitter Demo.writtenOnce 0 (Chroma.toEntry 38%Z Demo.chunk1)).
  - exact issued_writtenOnce.
  - vm_compute. reflexivity.
Defined.

(** ** Setting up, and failing to *)

Section SetupFacts.
Context {Vector : Type} `{!Embeddings Vector} `{!Metric Vector} `{!LanguageModel}
        `{!TextSplitter}.

Lemma endsWithLine_bind {A B} (line : ConsoleLine)
  (m : Run.M (Vector := Vector) A) (k : A -> Run.M B) :
  (forall a, Frame.endsWithLine line (k a)) -> Frame.endsWithLine line (Run.bind m k).
Proof.
  intros Hk w b w'. unfold Run.bind.
  destruct (m w) as [[e|a] w1]; [discriminate | apply Hk].
Qed.

Lemma endsWithLine_log {A} (text : string) (a : A) :
  Frame.endsWithLine (Vector := Vector) (ConsoleLog text)
    (Run.bind (Run.console_log text) (fun _ => Run.ret a)).
Proof.
  intros w a' w'. unfold Run.bind, Run.console_log, Run.ret.
  intros [= _ <-]. apply last_snoc.
Qed.

(** [try { body } catch (error) { console.error(text, error); throw error }]
    throws what the body throws, after one line with it. *)
Lemma tryCatch_rethrow {A} (text : string) (body : Run.M (Vector := Vector) A)
  (w : World Vector) :
  Run.tryCatch body
    (fun error => Run.bind (Run.console_error text error) (fun _ => Run.throw error)) w
  = match body w with
    | (inl e, w') => (inl e, Run.logged (ConsoleError text e) w')
    | (inr a, w') => (inr a, w')
    end.
Proof. unfold Run.tryCatch. now destruct (body w) as [[e|a] w']. Qed.

Lemma install_setupRag_last_line (w : World Vector) :
  match Install.setupRag w with
  | (inl e, w') => last (console w') = Some (ConsoleError "Error setting up RAG system:" e)
  | (inr _, w') => last (console w') = Some (ConsoleLog "RAG system is ready to use!")
  end.
Proof.
  unfold Install.setupRag. rewrite tryCatch_rethrow.
  match goal with |- context [match ?body w with _ => _ end] =>
    assert (Hend : Frame.endsWithLine (ConsoleLog "RAG system is ready to use!") body)
      by (do 3 (apply endsWithLine_bind; intros); apply endsWithLine_log);
    destruct (body w) as [[e|chain] w'] eqn:E
  end.
  - apply last_snoc.
  - eapply Hend, E.
Qed.

(** [setupRag] of [install.ts] never throws silently: the error it
    throws is the one on the last line it printed, and when it returns the
    last line is the ready message. *)
Theorem setupRag_prints_what_it_throws (w : World Vector) :
  match Install.setupRag w with
  | (inl e, w') => last (console w') = Some (ConsoleError "Error setting up RAG system:" e)
  | (inr _, w') => last (console w') = Some (ConsoleLog "RAG system is ready to use!")
  end.
Proof. apply install_setupRag_last_line. Qed.

(** Without a readable book directory the setup stops at the listing:
    the error of the listing is printed and thrown, nothing is embedded,
    written or issued. *)
Theorem listing_failure_aborts_setup (w : World Vector) (e : Js.Error) :
  Fs.readdirSync (cwd w) MARKDOWN_DIR = inl e ->
  Install.setupRag w
  = (inl e,
     Run.logged (ConsoleError "Error setting up RAG system:" e)
       (Run.logged (ConsoleLog "Processing markdown files...") w))
  /\ (Fs.resolve (cwd w) MARKDOWN_DIR = None ->
      e = Fs.errno "ENOENT" "no such file or directory" "scandir" "./book").
Proof.
  intros Hlist. split.
  - unfold Install.setupRag. rewrite tryCatch_rethrow.
    erewrite bind_inl; [reflexivity|].
    unfold Install.processMarkdownFiles.
    erewrite bind_inr by reflexivity.
    erewrite bind_inl; [reflexivity|].
    unfold Install.loadDocuments.
    erewrite bind_inl; [reflexivity|].
    unfold Run.readdirSync. simpl. now rewrite Hlist.
  - intros Hnone. unfold Fs.readdirSync in Hlist. rewrite Hnone in Hlist.
    injection Hlist as <-. unfold Fs.unresolved.
    change (Fs.segments MARKDOWN_DIR) with ["book"].
    assert (Hthrough : Fs.throughFile (cwd w) ["book"] = false).
    { destruct (cwd w) as [content|entries]; [reflexivity|]. simpl.
      now destruct (Fs.assoc "book" entries) as [[content|sub]|]. }
    now rewrite Hthrough.
Qed.

(** A run of [setupRag] of [install.ts] in which every stage succeeds
    returns the chain over the five nearest documents, adds one entry per
    chunk to the collection and prints four lines after those of the
    loading. *)
Theorem setup_of_ingestion_succeeds (w w1 : World Vector) (chunks : list Document)
  (vectors : list Vector) :
  issued w ->
  Install.processMarkdownFiles w = (inr chunks, w1) ->
  embedDocuments (map pageContent chunks) = inr vectors ->
  length vectors = length chunks ->
  exists w',
    Install.setupRag w
    = (inr (Rag.ragChain (VectorStore.asRetriever CHROMA_CONFIG 5) PROMPT), w')
    /\ Chroma.count (chroma w') COLLECTION_NAME
       = Chroma.count (chroma w) COLLECTION_NAME + length chunks
    /\ console w'
       = console w1 ++ [ ConsoleLog "Creating vector store...";
                         ConsoleLog "Vector store created successfully!";
                         ConsoleLog "Creating RAG pipeline...";
                         ConsoleLog "RAG system is ready to use!" ].
Proof.
  intros Hissued Hload Hembed Hlen.
  destruct (processMarkdownFiles_store w) as [Hc Hu]. rewrite Hload in Hc, Hu.
  simpl in Hc, Hu.
  assert (Hissued1 : issued w1).
  { intros name c id. rewrite Hc, Hu. apply Hissued. }
  eexists. split; [|split].
  - unfold Install.setupRag. rewrite tryCatch_rethrow.
    erewrite bind_inr by exact Hload.
    erewrite bind_inr by exact (createVectorStore_written chunks vectors w1 Hembed Hlen).
    erewrite bind_inr by apply createRagPipeline_chain.
    reflexivity.
  - change (Chroma.count
              (chroma (VectorStore.written CHROMA_CONFIG vectors chunks
                         (Run.logged (ConsoleLog "Creating vector store...") w1)))
              (VectorStore.collectionName CHROMA_CONFIG)
            = Chroma.count (chroma w) COLLECTION_NAME + length chunks).
    rewrite written_count; [|exact Hissued1|exact Hlen].
    unfold Chroma.count. simpl chroma. now rewrite Hc.
  - simpl console.
    rewrite (proj2 (written_cwd CHROMA_CONFIG vectors chunks _)). simpl console.
    now rewrite <- !app_assoc.
Qed.

(** The statements that run the two programs never throw: an error of
    [main] ends as a line of the console, after the line [setupRag]
    printed for it when it came from the setup. *)
Theorem programs_never_reject (w : World Vector) :
  (TopLevel.install w).1 = inr tt
  /\ (TopLevel.app w).1 = inr tt
  /\ (forall e w', Install.setupRag w = (inl e, w') ->
        exists lines,
          console (TopLevel.install w).2
          = lines ++ [ ConsoleError "Error setting up RAG system:" e;
                       ConsoleError "" e ])
  /\ (forall e w', App.main w = (inl e, w') ->
        TopLevel.app w = (inr tt, Run.logged (ConsoleError "" e) w')).
Proof.
  split; [|split; [|split]].
  - unfold TopLevel.install, Run.tryCatch.
    destruct (Install.main w) as [[e|[]] w']; reflexivity.
  - unfold TopLevel.app, Run.tryCatch.
    destruct (App.main w) as [[e|[]] w']; reflexivity.
  - intros e w' Hsetup.
    pose proof (install_setupRag_last_line w) as Hlast.
    rewrite Hsetup in Hlast.
    unfold TopLevel.install, Run.tryCatch, Install.main.
    erewrite bind_inl by exact Hsetup. simpl console.
    destruct (console w') as [|line0 rest] using rev_ind; [discriminate|].
    rewrite last_snoc in Hlast. injection Hlast as ->.
    exists rest. now rewrite <- app_assoc.
  - intros e w' Hmain. unfold TopLevel.app, Run.tryCatch. now rewrite Hmain.
Qed.

End SetupFacts.

Lemma listing_failure_aborts_setup_witness :
  @Install.setupRag _ Demo.online Demo.metric Demo.model Demo.splitter DemoMore.bookless
  = (inl (Fs.errno "ENOENT" "no such file or directory" "scandir" "./book"),
     Run.logged
       (ConsoleError "Error setting up RAG system:"
          (Fs.errno "ENOENT" "no such file or directory" "scandir" "./book"))
       (Run.logged (ConsoleLog "Processing markdown files...") DemoMore.bookless)).
Proof.
  apply (@listing_failure_aborts_setup _ Demo.online Demo.metric Demo.model
           Demo.splitter DemoMore.bookless).
  reflexivity.
Defined.

Lemma setup_of_ingestion_succeeds_witness :
  exists w',
    @Install.setupRag _ Demo.online Demo.metric Demo.model Demo.splitter Demo.fresh
    = (inr (@Rag.ragChain _ Demo.online Demo.metric Demo.model
              (VectorStore.asRetriever CHROMA_CONFIG 5) PROMPT), w')
    /\ Chroma.count (chroma w') COLLECTION_NAME
       = Chroma.count (chroma Demo.fresh) COLLECTION_NAME + 2
    /\ console w'
       = console (@Install.processMarkdownFiles _ Demo.splitter Demo.fresh).2
         ++ [ ConsoleLog "Creating vector store...";
              ConsoleLog "Vector store created successfully!";
              ConsoleLog "Creating RAG pipeline...";
              ConsoleLog "RAG system is ready to use!" ].
Proof.
  apply (@setup_of_ingestion_succeeds _ Demo.online Demo.metric Demo.model
           Demo.splitter Demo.fresh _ [Demo.chunk1; Demo.chunk2] [38%Z; 17%Z]).
  - exact issued_fresh_world.
  - vm_compute. reflexivity.
  - reflexivity.
  - reflexivity.
Defined.

Lemma programs_never_reject_witness :
  exists lines,
    console (@TopLevel.install _ Demo.offline Demo.metric Demo.model Demo.splitter
               Demo.fresh).2
    = lines ++ [ ConsoleError "Error setting up RAG system:" Demo.networkError;
                 ConsoleError "" Demo.networkError ].
Proof.
  destruct (@programs_never_reject _ Demo.offline Demo.metric Demo.model
              Demo.splitter Demo.fresh) as (_ & _ & Hsetup & _).
  apply (Hsetup Demo.networkError
           (@Install.setupRag _ Demo.offline Demo.metric Demo.model Demo.splitter
              Demo.fresh).2).
  vm_compute. reflexivity.
Defined.

(** Both cases occur: with the embedding service unreachable the setup
    throws, with it reachable the setup returns. *)
Example setupRag_throws_and_returns :
  (exists e w',
      @Install.setupRag _ Demo.offline Demo.metric Demo.model Demo.splitter Demo.fresh
      = (inl e, w')
      /\ last (console w') = Some (ConsoleError "Error setting up RAG system:" e))
  /\ (exists chain w',
        @Install.setupRag _ Demo.online Demo.metric Demo.model Demo.splitter Demo.fresh
        = (inr chain, w')
        /\ last (console w') = Some (ConsoleLog "RAG system is ready to use!")).
Proof.
  split.
  - exists Demo.networkError. eexists. split; [vm_compute; reflexivity | reflexivity].
  - eexists _, _. split; [reflexivity | vm_compute; reflexivity].
Qed.

(** ** Asking a question *)

Section QuestionFacts.
Context {Vector : Type} `{!Embeddings Vector} `{!Metric Vector} `{!LanguageModel}.

(** The world in which the documents of a question are retrieved. *)
Lemma queryRag_unfold (r : VectorStore.Retriever) (nodes : list Prompt.Node)
  (question : string) (w : World Vector) :
  App.queryRag (Rag.ragChain r nodes) question w
  = match Rag.ragChain r nodes (Rag.mkInput question)
            (Run.logged (ConsoleLog ("Question: " +:+ question)) w) with
    | (inr response, w') =>
        (inr response, Run.logged (ConsoleLog ("Answer: " +:+ response)) w')
    | (inl e, w') => (inl e, w')
    end.
Proof.
  unfold App.queryRag, Run.bind, Run.console_log, Run.ret. simpl.
  now destruct (Rag.ragChain r nodes _ _) as [[e|response] w'].
Qed.

(** When the documents are retrieved and the model completes the prompt,
    [queryRag] returns the completion as it is, and prints the question,
    the two lines of the retrieval and the answer. *)
Theorem queryRag_returns_the_completion (r : VectorStore.Retriever)
  (question answer : string) (docs : list Document) (w w1 : World Vector) :
  VectorStore.invoke r question
    (Run.logged (ConsoleLog ("Retrieving documents for question: " +:+ question))
       (Run.logged (ConsoleLog ("Question: " +:+ question)) w))
  = (inr docs, w1) ->
  generate (Spec.promptOf (Spec.contextOf docs) question) = inr answer ->
  App.queryRag (Rag.ragChain r PROMPT) question w
  = (inr answer,
     Run.logged (ConsoleLog ("Answer: " +:+ answer))
       (Run.logged (ConsoleLog ("Retrieved " +:+ pretty (length docs) +:+ " documents"))
          w1)).
Proof.
  intros Hdocs Hanswer. rewrite queryRag_unfold. unfold Rag.ragChain.
  erewrite bind_inr by (apply (assemble_retrieved r (Rag.mkInput question)), Hdocs).
  erewrite bind_inr by (unfold Run.lift; simpl; now rewrite Hanswer).
  reflexivity.
Qed.

(** When the model fails on the prompt, [queryRag] throws the error of
    the model after the lines of the retrieval and prints no answer. *)
Theorem queryRag_throws_the_model_error (r : VectorStore.Retriever)
  (question : string) (e : Js.Error) (docs : list Document) (w w1 : World Vector) :
  VectorStore.invoke r question
    (Run.logged (ConsoleLog ("Retrieving documents for question: " +:+ question))
       (Run.logged (ConsoleLog ("Question: " +:+ question)) w))
  = (inr docs, w1) ->
  generate (Spec.promptOf (Spec.contextOf docs) question) = inl e ->
  App.queryRag (Rag.ragChain r PROMPT) question w
  = (inl e,
     Run.logged (ConsoleLog ("Retrieved " +:+ pretty (length docs) +:+ " documents")) w1).
Proof.
  intros Hdocs Hfail. rewrite queryRag_unfold. unfold Rag.ragChain.
  erewrite bind_inr by (apply (assemble_retrieved r (Rag.mkInput question)), Hdocs).
  erewrite bind_inl; [reflexivity|]. unfold Run.lift. simpl. now rewrite Hfail.
Qed.

(** When the question cannot be embedded, [queryRag] throws the error of
    the embedding service before anything is retrieved: the store is not
    opened, the model is not given a prompt and two lines are printed,
    whatever the template. *)
Theorem queryRag_throws_the_embedding_error (r : VectorStore.Retriever)
  (nodes : list Prompt.Node) (question : string) (e : Js.Error) (w : World Vector) :
  embedQuery question = inl e ->
  App.queryRag (Rag.ragChain r nodes) question w
  = (inl e,
     Run.logged (ConsoleLog ("Retrieving documents for question: " +:+ question))
       (Run.logged (ConsoleLog ("Question: " +:+ question)) w)).
Proof.
  intros Hfail. rewrite queryRag_unfold.
  unfold Rag.ragChain, Rag.assemble, Rag.slots, Rag.context.
  erewrite bind_inl; [reflexivity|].
  erewrite bind_inl; [reflexivity|].
  erewrite bind_inl; [reflexivity|].
  erewrite bind_inr by reflexivity.
  erewrite bind_inl; [reflexivity|].
  unfold VectorStore.invoke, VectorStore.similaritySearch.
  erewrite bind_inl; [reflexivity|]. unfold Run.lift. simpl. now rewrite Hfail.
Qed.

Lemma queryAll_app (chain : Rag.RagChain Vector) (before after : list string)
  (w : World Vector) :
  App.queryAll chain (before ++ after) w
  = match App.queryAll chain before w with
    | (inr _, w') => App.queryAll chain after w'
    | (inl e, w') => (inl e, w')
    end.
Proof.
  revert w. induction before as [|q before IH]; intros w; simpl; [reflexivity|].
  unfold Run.bind.
  destruct (App.queryRag chain q w) as [[e|response] w']; [reflexivity | apply IH].
Qed.

(** The questions are asked in order and the first failure ends the run
    of [main]: the questions after it are not asked, the error and the
    world are those of the failed question. *)
Theorem questions_stop_at_the_first_failure (chain : Rag.RagChain Vector)
  (before after : list string) (question : string) (e : Js.Error)
  (w w0 w1 w2 : World Vector) :
  App.setupRag w = (inr chain, w0) ->
  App.queryAll chain before w0 = (inr tt, w1) ->
  App.queryRag chain question w1 = (inl e, w2) ->
  App.mainWith (before ++ question :: after) w = (inl e, w2).
Proof.
  intros Hsetup Hbefore Hfail. unfold App.mainWith.
  erewrite bind_inr by exact Hsetup.
  rewrite queryAll_app, Hbefore. simpl.
  now erewrite bind_inl by exact Hfail.
Qed.

End QuestionFacts.

Section QuestionExamples.

#[local] Existing Instance Demo.online.
#[local] Existing Instance Demo.metric.

Lemma queryRag_returns_the_completion_witness :
  (@App.queryRag _ (@Rag.ragChain _ Demo.online Demo.metric Demo.model Demo.retriever PROMPT)
     "What is the cat name ?" Demo.ingested).1
  = inr "Alice".
Proof.
  erewrite (@queryRag_returns_the_completion _ Demo.online Demo.metric Demo.model
              Demo.retriever "What is the cat name ?" "Alice"
              [Demo.chunk2; Demo.chunk1] Demo.ingested);
    [reflexivity | vm_compute; reflexivity | reflexivity].
Defined.

Lemma queryRag_throws_the_model_error_witness :
  (@App.queryRag _ (@Rag.ragChain _ Demo.online Demo.metric DemoMore.unreachable
                      Demo.retriever PROMPT)
     "What is the cat name ?" Demo.ingested).1
  = inl (Js.mkError "TypeError" "fetch failed").
Proof.
  erewrite (@queryRag_throws_the_model_error _ Demo.online Demo.metric
              DemoMore.unreachable Demo.retriever "What is the cat name ?"
              (Js.mkError "TypeError" "fetch failed")
              [Demo.chunk2; Demo.chunk1] Demo.ingested);
    [reflexivity | vm_compute; reflexivity | reflexivity].
Defined.

Lemma queryRag_throws_the_embedding_error_witness :
  @App.queryRag _ (@Rag.ragChain _ Demo.offline Demo.metric Demo.model
                     Demo.retriever PROMPT)
    "What is the cat name ?" Demo.ingested
  = (inl Demo.networkError,
     Run.logged
       (ConsoleLog "Retrieving documents for question: What is the cat name ?")
       (Run.logged (ConsoleLog "Question: What is the cat name ?") Demo.ingested)).
Proof.
  apply (@queryRag_throws_the_embedding_error _ Demo.offline Demo.metric Demo.model
           Demo.retriever PROMPT "What is the cat name ?" Demo.networkError
           Demo.ingested).
  reflexivity.
Defined.

Lemma questions_stop_at_the_first_failure_witness :
  (@App.mainWith _ Demo.offline Demo.metric Demo.model
     ([] ++ "Who is the main character ?" :: ["Who is the anti-protagonist ?"])
     Demo.ingested).1
  = inl Demo.networkError.
Proof.
  erewrite (@questions_stop_at_the_first_failure _ Demo.offline Demo.metric Demo.model
              (@Rag.ragChain _ Demo.offline Demo.metric Demo.model Demo.retriever PROMPT)
              [] ["Who is the anti-protagonist ?"] "Who is the main character ?"
              Demo.networkError Demo.ingested);
    [reflexivity | vm_compute; reflexivity | reflexivity | vm_compute; reflexivity].
Defined.

End QuestionExamples.

(** ** What a prompt holds *)

Section OccurrenceFacts.
Context {Vector : Type} `{!Embeddings Vector} `{!Metric Vector} `{!LanguageModel}.

Lemma occursIn_refl (s : string) : occursIn s s.
Proof. exists "", "". simpl. now rewrite append_empty_r. Qed.

Lemma occursIn_trans (a b c : string) : occursIn a b -> occursIn b c -> occursIn a c.
Proof.
  intros (p & q & ->) (p' & q' & ->). exists (p' +:+ p), (q +:+ q').
  now rewrite !append_assoc.
Qed.

Lemma occursIn_append_l (a b c : string) : occursIn a b -> occursIn a (c +:+ b).
Proof. intros (p & q & ->). exists (c +:+ p), q. now rewrite !append_assoc. Qed.

Lemma occursIn_append_r (a b c : string) : occursIn a b -> occursIn a (b +:+ c).
Proof. intros (p & q & ->). exists p, (q +:+ c). now rewrite !append_assoc. Qed.

Lemma occursIn_blankLineJoined (block : string) (blocks : list string) :
  In block blocks -> occursIn block (Spec.blankLineJoined blocks).
Proof.
  induction blocks as [|b [|b' blocks] IH]; intros Hin.
  - destruct Hin.
  - destruct Hin as [->|[]]. apply occursIn_refl.
  - cbn [Spec.blankLineJoined]. destruct Hin as [->|Hin].
    + apply occursIn_append_r, occursIn_refl.
    + do 3 apply occursIn_append_l. now apply IH.
Qed.

Lemma occursIn_promptOf (context question : string) :
  occursIn context (Spec.promptOf context question)
  /\ occursIn question (Spec.promptOf context question).
Proof.
  unfold Spec.promptOf. split.
  - do 6 apply occursIn_append_l. apply occursIn_append_r, occursIn_refl.
  - do 11 apply occursIn_append_l. apply occursIn_append_r, occursIn_refl.
Qed.

(** Nothing that was retrieved is left out of the prompt: it holds the
    question, and the text and the source identifier of every retrieved
    document, as they are. *)
Theorem prompt_holds_question_and_documents (r : VectorStore.Retriever)
  (input : Rag.Input) (docs : list Document) (w w1 : World Vector) :
  VectorStore.invoke r (Rag.question input)
    (Run.logged (ConsoleLog ("Retrieving documents for question: "
                             +:+ Rag.question input)) w)
  = (inr docs, w1) ->
  exists prompt w2,
    Rag.assemble r PROMPT input w = (inr prompt, w2)
    /\ occursIn (Rag.question input) prompt
    /\ (forall d, In d docs ->
          occursIn (pageContent d) prompt
          /\ occursIn (Spec.sourceIdentifier d) prompt).
Proof.
  intros Hdocs. eexists _, _.
  split; [exact (assemble_retrieved r input docs w w1 Hdocs)|].
  split; [apply (proj2 (occursIn_promptOf _ _))|].
  intros d Hd.
  assert (Hblock : occursIn (Spec.prefixed d)
                     (Spec.promptOf (Spec.contextOf docs) (Rag.question input))).
  { eapply occursIn_trans; [|apply (proj1 (occursIn_promptOf _ _))].
    apply occursIn_blankLineJoined. now apply in_map. }
  split; (eapply occursIn_trans; [|exact Hblock]); unfold Spec.prefixed.
  - do 3 apply occursIn_append_l. apply occursIn_refl.
  - apply occursIn_append_l, occursIn_append_r, occursIn_refl.
Qed.

End OccurrenceFacts.

Lemma prompt_holds_question_and_documents_witness :
  exists prompt w2,
    @Rag.assemble _ Demo.online Demo.metric Demo.retriever PROMPT Demo.question
      Demo.ingested
    = (inr prompt, w2)
    /\ occursIn "Who is the main character ?" prompt
    /\ (forall d, In d [Demo.chunk2; Demo.chunk1] ->
          occursIn (pageContent d) prompt
          /\ occursIn (Spec.sourceIdentifier d) prompt).
Proof.
  apply (@prompt_holds_question_and_documents _ Demo.online Demo.metric
           Demo.retriever Demo.question [Demo.chunk2; Demo.chunk1] Demo.ingested
           (VectorStore.opened CHROMA_CONFIG Demo.asked)).
  vm_compute. reflexivity.
Defined.
